(** * Motor simulator: the calculation core of [motor_simulator.py]

    The development embeds the parameter lookup, the two steady-state
    engines ([simulate_dc_motor], [simulate_ac_motor]), the rating
    heuristic ([calculate_performance_rating]) and the run orchestration
    ([run_simulation]) of the Python program, and checks the testable
    properties of the specification against them.

    Numbers.  The program computes with Python [float]s and, inside the
    sweeps, with numpy [float64] scalars.  The engines are written once over
    an interface [PyFloat] of the IEEE-754 operations and are interpreted
    twice:
    - [binary64]: Rocq's primitive floats, bit for bit what CPython runs;
    - [exact]: exact real arithmetic extended with the IEEE special values
      (two infinities and not-a-number), with no rounding and no overflow.

    Exceptions.  A Python [float] raises where a numpy scalar only warns:
    [x / 0.0] is [ZeroDivisionError], a finite [x ** 2] that overflows is
    [OverflowError], [math.sqrt] of a negative number and [int(nan)] are
    [ValueError].  These are the constructors of [exn]; a computation that
    may raise lives in [result]. *)

From Stdlib Require Import ZArith List String Ascii Bool Lia.
From Stdlib Require Import Reals Lra.
From Stdlib Require Import Floats.
From stdpp Require Import base option list gmap strings.

Set Warnings "-inexact-float".

Local Open Scope Z_scope.

(** ** Python exceptions and the result monad *)

Inductive exn : Type :=
  | ZeroDivisionError
  | OverflowError
  | ValueError
  | KeyError (key : string)
  | ExternalError (message : string).

Inductive result (A : Type) : Type :=
  | Ok (value : A)
  | Raise (e : exn).

Arguments Ok {A} value.
Arguments Raise {A} e.

#[global] Instance result_ret : MRet result := fun _ x => Ok x.
#[global] Instance result_bind : MBind result := fun _ _ f m =>
  match m with
  | Ok x => f x
  | Raise e => Raise e
  end.

Definition is_ok {A : Type} (r : result A) : bool :=
  match r with Ok _ => true | Raise _ => false end.

(** ** The text of a number

    Python's [float()] accepts, between optional white space, an optional
    sign followed by [inf], [infinity], [nan] (in any case) or a decimal
    number: digits with an optional point and an optional exponent, a
    single underscore allowed between two digits.  [scan_float] reads that
    grammar; the value of a number is [mantissa * 10 ^ exponent10]. *)

Inductive float_text : Type :=
  | TextNumber (negative : bool) (mantissa : Z) (exponent10 : Z)
  | TextInfinity (negative : bool)
  | TextNan.

Definition is_space (c : ascii) : bool :=
  let n := nat_of_ascii c in
  ((9 <=? n)%nat && (n <=? 13)%nat) || (n =? 32)%nat.

Definition is_digit (c : ascii) : bool :=
  let n := nat_of_ascii c in (48 <=? n)%nat && (n <=? 57)%nat.

Definition digit_value (c : ascii) : Z := Z.of_nat (nat_of_ascii c) - 48.

Definition lower (c : ascii) : ascii :=
  let n := nat_of_ascii c in
  if (65 <=? n)%nat && (n <=? 90)%nat then ascii_of_nat (n + 32) else c.

Definition upper (c : ascii) : ascii :=
  let n := nat_of_ascii c in
  if (97 <=? n)%nat && (n <=? 122)%nat then ascii_of_nat (n - 32) else c.

Fixpoint drop_spaces (l : list ascii) : list ascii :=
  match l with
  | c :: l' => if is_space c then drop_spaces l' else l
  | [] => []
  end.

Definition strip (l : list ascii) : list ascii :=
  rev (drop_spaces (rev (drop_spaces l))).

(** The digits of a [digitpart] after its first one: the value read so
    far, the number of digits read, and what is left. *)
Fixpoint digits_tail (l : list ascii) (acc : Z) (n : Z) : Z * Z * list ascii :=
  match l with
  | c :: l' =>
      if is_digit c then digits_tail l' (10 * acc + digit_value c) (n + 1)
      else if Ascii.eqb c "_" then
        match l' with
        | d :: l'' =>
            if is_digit d then digits_tail l'' (10 * acc + digit_value d) (n + 1)
            else (acc, n, l)
        | [] => (acc, n, l)
        end
      else (acc, n, l)
  | [] => (acc, n, [])
  end.

Definition digitpart (l : list ascii) (acc : Z) : option (Z * Z * list ascii) :=
  match l with
  | c :: l' =>
      if is_digit c then Some (digits_tail l' (10 * acc + digit_value c) 1)
      else None
  | [] => None
  end.

Definition scan_exponent (l : list ascii) : option Z :=
  match l with
  | [] => Some 0
  | c :: l' =>
      if Ascii.eqb (lower c) "e" then
        let '(neg, l'') :=
          match l' with
          | "+"%char :: r => (false, r)
          | "-"%char :: r => (true, r)
          | _ => (false, l')
          end in
        match digitpart l'' 0 with
        | Some (e, _, []) => Some (if neg then - e else e)
        | _ => None
        end
      else None
  end.

Definition scan_number (negative : bool) (l : list ascii) : option float_text :=
  match l with
  | "."%char :: l' =>
      match digitpart l' 0 with
      | Some (m, n, rest) =>
          e ← scan_exponent rest; Some (TextNumber negative m (e - n))
      | None => None
      end
  | _ =>
      match digitpart l 0 with
      | Some (ip, _, "."%char :: rest) =>
          match digitpart rest ip with
          | Some (m, n, rest') =>
              e ← scan_exponent rest'; Some (TextNumber negative m (e - n))
          | None => e ← scan_exponent rest; Some (TextNumber negative ip e)
          end
      | Some (ip, _, rest) =>
          e ← scan_exponent rest; Some (TextNumber negative ip e)
      | None => None
      end
  end.

Definition scan_float (s : string) : option float_text :=
  let l := strip (list_ascii_of_string s) in
  let '(negative, l') :=
    match l with
    | "+"%char :: r => (false, r)
    | "-"%char :: r => (true, r)
    | _ => (false, l)
    end in
  let word := string_of_list_ascii (map lower l') in
  if String.eqb word "inf" || String.eqb word "infinity" then
    Some (TextInfinity negative)
  else if String.eqb word "nan" then Some TextNan
  else scan_number negative l'.

(** ** The arithmetic interface

    [fadd] .. [fsqrt] are the IEEE-754 operations, which never raise (this
    is what numpy scalars do); [of_Z] converts a Python [int];
    [of_decimal neg m e] is the number nearest to [(-1)^neg * m * 10^e];
    [trunc] is the integer part of a finite number (rounding toward
    zero). *)

Class PyFloat (F : Type) : Type := {
  fadd : F -> F -> F;
  fsub : F -> F -> F;
  fmul : F -> F -> F;
  fdiv : F -> F -> F;
  fsqrt : F -> F;
  fltb : F -> F -> bool;
  fleb : F -> F -> bool;
  feqb : F -> F -> bool;
  of_decimal : bool -> Z -> Z -> F;
  f_inf : F;
  f_nan : F;
  math_pi : F;
  f_isnan : F -> bool;
  f_isinf : F -> bool;
  f_trunc : F -> Z
}.

Declare Scope py_scope.
Delimit Scope py_scope with py.
Infix "+" := fadd : py_scope.
Infix "-" := fsub : py_scope.
Infix "*" := fmul : py_scope.
Infix "/" := fdiv : py_scope.
Infix "<?" := fltb : py_scope.
Infix "<=?" := fleb : py_scope.
Infix "=?" := feqb : py_scope.

(** *** IEEE-754 binary64 *)

Module Binary64.

Definition of_decimal (negative : bool) (m e : Z) : float :=
  match m with
  | Zpos p =>
      if 0 <=? e
      then SF2Prim (binary_round prec emax negative (Z.to_pos (m * 10 ^ e)) 0)
      else SF2Prim (SFdiv prec emax (S754_finite negative p 0)
                      (S754_finite false (Z.to_pos (10 ^ (- e))) 0))
  | _ => if negative then neg_zero else zero
  end.

Definition trunc (x : float) : Z :=
  match Prim2SF x with
  | S754_finite s m e =>
      let v := if 0 <=? e then Zpos m * 2 ^ e else Z.shiftr (Zpos m) (- e) in
      if s then - v else v
  | _ => 0
  end.

(** [math.pi], the double nearest to pi. *)
Definition math_pi : float := 0x1.921fb54442d18p+1%float.

End Binary64.

#[global] Instance binary64 : PyFloat float := {|
  fadd := PrimFloat.add;
  fsub := PrimFloat.sub;
  fmul := PrimFloat.mul;
  fdiv := PrimFloat.div;
  fsqrt := PrimFloat.sqrt;
  fltb := PrimFloat.ltb;
  fleb := PrimFloat.leb;
  feqb := PrimFloat.eqb;
  of_decimal := Binary64.of_decimal;
  f_inf := PrimFloat.infinity;
  f_nan := PrimFloat.nan;
  math_pi := Binary64.math_pi;
  f_isnan := PrimFloat.is_nan;
  f_isinf := PrimFloat.is_infinity;
  f_trunc := Binary64.trunc
|}.

(** The parameter store maps a parameter key to the text of its entry
    field ([self.param_vars[key].get()]). *)
Abbreviation param_store := (gmap string string).

(** *** Exact arithmetic with the IEEE special values

    Finite numbers are real numbers and every operation on them is exact;
    the infinities and not-a-number behave as IEEE-754 prescribes.  There
    is one zero, which divides like the positive zero. *)

Module Exact.

Inductive xreal : Type :=
  | Fin (r : R)
  | PInf
  | NInf
  | NaN.

Definition signed_inf (negative : bool) : xreal := if negative then NInf else PInf.

Definition Rneg (r : R) : bool := if Rlt_dec r 0 then true else false.
Definition Rzero (r : R) : bool := if Req_dec_T r 0 then true else false.

Definition add (x y : xreal) : xreal :=
  match x, y with
  | NaN, _ | _, NaN => NaN
  | Fin a, Fin b => Fin (a + b)
  | PInf, NInf | NInf, PInf => NaN
  | PInf, _ | _, PInf => PInf
  | NInf, _ | _, NInf => NInf
  end.

Definition opp (x : xreal) : xreal :=
  match x with
  | Fin a => Fin (- a)
  | PInf => NInf
  | NInf => PInf
  | NaN => NaN
  end.

Definition sub (x y : xreal) : xreal :=
  match x, y with
  | Fin a, Fin b => Fin (a - b)
  | _, _ => add x (opp y)
  end.

Definition inf_times (negative : bool) (r : R) : xreal :=
  if Rzero r then NaN else signed_inf (xorb negative (Rneg r)).

Definition mul (x y : xreal) : xreal :=
  match x, y with
  | NaN, _ | _, NaN => NaN
  | Fin a, Fin b => Fin (a * b)
  | PInf, Fin b => inf_times false b
  | NInf, Fin b => inf_times true b
  | Fin a, PInf => inf_times false a
  | Fin a, NInf => inf_times true a
  | PInf, PInf | NInf, NInf => PInf
  | PInf, NInf | NInf, PInf => NInf
  end.

Definition div (x y : xreal) : xreal :=
  match x, y with
  | NaN, _ | _, NaN => NaN
  | Fin a, Fin b =>
      if Rzero b then (if Rzero a then NaN else signed_inf (Rneg a))
      else Fin (a / b)
  | Fin _, (PInf | NInf) => Fin 0
  | PInf, Fin b => signed_inf (Rneg b)
  | NInf, Fin b => signed_inf (negb (Rneg b))
  | (PInf | NInf), (PInf | NInf) => NaN
  end.

Definition sqrt (x : xreal) : xreal :=
  match x with
  | Fin a => if Rneg a then NaN else Fin (R_sqrt.sqrt a)
  | PInf => PInf
  | NInf | NaN => NaN
  end.

Definition ltb (x y : xreal) : bool :=
  match x, y with
  | NaN, _ | _, NaN => false
  | Fin a, Fin b => if Rlt_dec a b then true else false
  | NInf, (Fin _ | PInf) => true
  | Fin _, PInf => true
  | _, _ => false
  end.

Definition eqb (x y : xreal) : bool :=
  match x, y with
  | Fin a, Fin b => if Req_dec_T a b then true else false
  | PInf, PInf | NInf, NInf => true
  | _, _ => false
  end.

Definition leb (x y : xreal) : bool := ltb x y || eqb x y.

Definition of_decimal (negative : bool) (m e : Z) : xreal :=
  Fin ((if negative then - IZR m else IZR m) * powerRZ 10 e).

Definition isnan (x : xreal) : bool := match x with NaN => true | _ => false end.
Definition isinf (x : xreal) : bool :=
  match x with PInf | NInf => true | _ => false end.

Definition trunc (x : xreal) : Z :=
  match x with
  | Fin a => if Rneg a then (- Int_part (- a))%Z else Int_part a
  | _ => 0%Z
  end.

End Exact.

#[global] Instance exact : PyFloat Exact.xreal := {|
  fadd := Exact.add;
  fsub := Exact.sub;
  fmul := Exact.mul;
  fdiv := Exact.div;
  fsqrt := Exact.sqrt;
  fltb := Exact.ltb;
  fleb := Exact.leb;
  feqb := Exact.eqb;
  of_decimal := Exact.of_decimal;
  f_inf := Exact.PInf;
  f_nan := Exact.NaN;
  math_pi := Exact.Fin PI;
  f_isnan := Exact.isnan;
  f_isinf := Exact.isinf;
  f_trunc := Exact.trunc
|}.

Section Generic.
Context {F : Type} `{PyFloat F}.

Local Open Scope py_scope.

(** A decimal literal of the source, [m * 10 ^ e]; a Python [int] that
    meets a [float] is converted exactly, so it is a literal too. *)
Definition lit (m e : Z) : F := of_decimal false m e.

Definition of_Z (z : Z) : F := of_decimal (z <? 0)%Z (Z.abs z) 0.

Definition fgtb (x y : F) : bool := y <? x.
Definition fgeb (x y : F) : bool := y <=? x.
Infix ">?" := fgtb (at level 70) : py_scope.
Infix ">=?" := fgeb (at level 70) : py_scope.

(** *** Operations of a Python [float] that raise *)

(** [x / y] *)
Definition py_div (x y : F) : result F :=
  if y =? lit 0 0 then Raise ZeroDivisionError else Ok (x / y).

(** [x ** 2]: not-a-number and the infinities pass, a finite square that
    overflows is an [OverflowError].  (C's [pow] at exponent 2 is taken as
    the correctly rounded square.) *)
Definition py_pow2 (x : F) : result F :=
  if f_isnan x then Ok x
  else if f_isinf x then Ok f_inf
  else let r := x * x in
       if f_isinf r then Raise OverflowError else Ok r.

(** numpy's [x ** 2] only warns. *)
Definition np_pow2 (x : F) : F := x * x.

(** [math.sqrt(x)] *)
Definition py_sqrt (x : F) : result F :=
  if x <? lit 0 0 then Raise ValueError else Ok (fsqrt x).

(** [int(x)] *)
Definition py_int (x : F) : result Z :=
  if f_isnan x then Raise ValueError
  else if f_isinf x then Raise OverflowError
  else Ok (f_trunc x).

(** [max(0, x)]: the builtin keeps its first argument unless a later one
    is greater. *)
Definition max0 (x : F) : F := if x >? lit 0 0 then x else lit 0 0.

(** [min(x, 100)]: the builtin keeps its first argument unless a later
    one is smaller. *)
Definition min100 (x : F) : F := if lit 100 0 <? x then lit 100 0 else x.

Definition float_of_string (s : string) : option F :=
  match scan_float s with
  | Some (TextNumber negative m e) => Some (of_decimal negative m e)
  | Some (TextInfinity negative) => Some (if negative then lit 0 0 - f_inf else f_inf)
  | Some TextNan => Some f_nan
  | None => None
  end.

(** [float(text)] *)
Definition py_float (text : string) : result F :=
  match float_of_string text with
  | Some x => Ok x
  | None => Raise ValueError
  end.

(** ** Parameter lookup *)


Definition lookup_var (param_vars : param_store) (key : string) : result string :=
  match param_vars !! key with
  | Some text => Ok text
  | None => Raise (KeyError key)
  end.

Definition get_parameter_value
    (param_vars : param_store) (key : string) (default : F) : result F :=
  match text ← lookup_var param_vars key; py_float text with
  | Ok x => Ok x
  | Raise ValueError => Ok default
  | Raise (KeyError _) => Ok default
  | Raise e => Raise e
  end.

(** ** numpy's [linspace(start, stop, num)] with its default end point

    numpy is not part of the repository; the definition follows its
    reference implementation: the samples are [i * step + start] with
    [step = (stop - start) / (num - 1)], computed as [(i / (num - 1)) *
    (stop - start)] when the step underflows to zero, and the last sample
    is [stop] itself. *)

Fixpoint set_last (l : list F) (x : F) : list F :=
  match l with
  | [] => []
  | [_] => [x]
  | y :: l' => y :: set_last l' x
  end.

Definition linspace (start stop : F) (num : nat) : list F :=
  let div := (Z.of_nat num - 1)%Z in
  let delta := stop - start in
  let y := map (fun i => of_Z (Z.of_nat i)) (seq 0 num) in
  let y :=
    if (0 <? div)%Z then
      let step := delta / of_Z div in
      if step =? lit 0 0
      then map (fun v => (v / of_Z div) * delta) y
      else map (fun v => v * step) y
    else map (fun v => v * delta) y in
  let y := map (fun v => v + start) y in
  if (1 <? Z.of_nat num)%Z then set_last y stop else y.

(** ** Result bundle *)

Inductive type_specific : Type :=
  | DCKeys (armature_current field_current back_emf
            armature_loss field_loss current_density : F)
  | ACKeys (synchronous_speed slip frequency : F) (poles : Z)
           (stator_current stator_loss rotor_loss air_gap_power : F).

Record results : Type := mkResults {
  motor_type : string;
  timestamp : option string;
  input_voltage : F;
  input_current : F;
  input_power : F;
  output_power : F;
  mechanical_power : F;
  efficiency : F;
  speed_rpm : F;
  speed_rad_s : F;
  torque : F;
  load_torque : F;
  developed_torque : F;
  core_loss : F;
  mechanical_loss : F;
  total_loss : F;
  operating_temp : F;
  temp_rise : F;
  power_factor : F;
  speed_range : list F;
  torque_curve : list F;
  current_curve : list F;
  power_curve : list F;
  efficiency_curve : list F;
  specific : type_specific
}.

(** The four lists a sweep appends to. *)
Record curves : Type := mkCurves {
  c_torque : list F;
  c_current : list F;
  c_power : list F;
  c_efficiency : list F
}.

Definition no_curves : curves := mkCurves [] [] [] [].

Definition append_sample (c : curves) (T I P eff : F) : curves :=
  mkCurves (c_torque c ++ [T]) (c_current c ++ [I])
           (c_power c ++ [P]) (c_efficiency c ++ [eff]).

(** A [for] loop whose body may raise. *)
Fixpoint for_each {S : Type} (body : S -> F -> result S) (l : list F) (s : S)
    : result S :=
  match l with
  | [] => Ok s
  | x :: l' => s' ← body s x; for_each body l' s'
  end.

(** ** DC motor engine *)

(** The body of the sweep loop of [simulate_dc_motor]; [n] is a numpy
    scalar, so no operation of the body raises. *)
Definition dc_sweep_body (V V_armature Ra Ke Kt : F) (c : curves) (n : F) : curves :=
  let omega := n * lit 2 0 * math_pi / lit 60 0 in
  let Eb := Ke * omega in
  let Ia := max0 ((V_armature - Eb) / Ra) in
  let T := Kt * Ia in
  let P_out := T * omega in
  let P_in := V * Ia in
  let eff := if P_in >? lit 0 0 then P_out / P_in * lit 100 0 else lit 0 0 in
  append_sample c T Ia P_out (min100 eff).

Definition simulate_dc_motor (param_vars : param_store) : result results :=
  V ← get_parameter_value param_vars "rated_voltage" (lit 220 0);
  I_rated ← get_parameter_value param_vars "rated_current" (lit 10 0);
  Ra ← get_parameter_value param_vars "armature_resistance" (lit 15 (-1));
  Rf ← get_parameter_value param_vars "field_resistance" (lit 100 0);
  Ke ← get_parameter_value param_vars "back_emf_constant" (lit 8 (-1));
  Kt ← get_parameter_value param_vars "torque_constant" (lit 8 (-1));
  T_load ← get_parameter_value param_vars "load_torque" (lit 10 0);
  N_rated ← get_parameter_value param_vars "rated_speed" (lit 1500 0);
  J ← get_parameter_value param_vars "rotor_inertia" (lit 1 (-3));
  (* field current *)
  I_field ← py_div V Rf;
  let V_armature := V in
  (* back EMF at rated speed *)
  let omega_rated := N_rated * lit 2 0 * math_pi / lit 60 0 in
  let Eb_rated := Ke * omega_rated in
  (* armature current at rated condition *)
  I_armature ← py_div (V_armature - Eb_rated) Ra;
  let T_developed := Kt * I_armature in
  let T_friction := T_developed * lit 5 (-2) in
  let T_shaft := T_developed - T_friction in
  (* speed under load *)
  speed_reduction_factor ←
    (if T_developed >? lit 0 0 then py_div T_load T_developed else Ok (lit 0 0));
  let N_actual := N_rated * (lit 1 0 - speed_reduction_factor * lit 1 (-1)) in
  let omega_actual := N_actual * lit 2 0 * math_pi / lit 60 0 in
  (* powers *)
  let P_input := V * I_armature in
  I_armature_2 ← py_pow2 I_armature;
  let P_armature_loss := I_armature_2 * Ra in
  I_field_2 ← py_pow2 I_field;
  let P_field_loss := I_field_2 * Rf in
  let P_mechanical := T_shaft * omega_actual in
  let P_output := T_load * omega_actual in
  efficiency ←
    (if P_input >? lit 0 0
     then q ← py_div P_output P_input; Ok (q * lit 100 0)
     else Ok (lit 0 0));
  let P_core_loss := lit 2 (-2) * P_input in
  let P_total_loss :=
    P_armature_loss + P_field_loss + P_core_loss + (T_friction * omega_actual) in
  (* temperature rise *)
  let thermal_resistance := lit 5 0 in
  let temp_rise := P_total_loss * thermal_resistance in
  ambient_temp ← get_parameter_value param_vars "ambient_temp" (lit 40 0);
  let operating_temp := ambient_temp + temp_rise in
  let conductor_area := lit 1 (-4) in
  current_density ←
    (if conductor_area >? lit 0 0 then py_div I_armature conductor_area
     else Ok (lit 0 0));
  (* performance curves *)
  let speed_range := linspace (lit 0 0) (N_rated * lit 12 (-1)) 50 in
  let c := fold_left (dc_sweep_body V V_armature Ra Ke Kt) speed_range no_curves in
  Ok {| motor_type := "DC Motor";
        timestamp := None;
        input_voltage := V;
        input_current := I_armature;
        input_power := P_input;
        output_power := P_output;
        mechanical_power := P_mechanical;
        efficiency := efficiency;
        speed_rpm := N_actual;
        speed_rad_s := omega_actual;
        torque := T_shaft;
        load_torque := T_load;
        developed_torque := T_developed;
        core_loss := P_core_loss;
        mechanical_loss := T_friction * omega_actual;
        total_loss := P_total_loss;
        operating_temp := operating_temp;
        temp_rise := temp_rise;
        power_factor := lit 1 0;
        speed_range := speed_range;
        torque_curve := c_torque c;
        current_curve := c_current c;
        power_curve := c_power c;
        efficiency_curve := c_efficiency c;
        specific :=
          DCKeys I_armature I_field (Ke * omega_actual)
                 P_armature_loss P_field_loss current_density |}.

(** ** AC induction motor engine *)

(** The body of the sweep loop of [simulate_ac_motor].  [s_val] is a numpy
    scalar: what is computed from it only warns, while [Vph ** 2],
    [(X1 + X2) ** 2], [math.sqrt] and [Vph / Z_s] work on Python floats and
    may raise.  Where [s_val > 0] fails, [Rr_s] is the Python float
    [float('inf')] and the operations on it are Python's. *)
Definition ac_sweep_body (V Rs Rr X1 X2 Vph Ns omega_sync : F)
    (c : curves) (s_val : F) : result curves :=
  let numpy := s_val >? lit 0 0 in
  let Rr_s := if numpy then Rr / s_val else f_inf in
  R_2 ← (if numpy then Ok (np_pow2 (Rs + Rr_s)) else py_pow2 (Rs + Rr_s));
  X_2 ← py_pow2 (X1 + X2);
  Z_s ← py_sqrt (R_2 + X_2);
  I_s ← (if Z_s >? lit 0 0 then py_div Vph Z_s else Ok (lit 0 0));
  T_s ←
    (if numpy then
       Vph_2 ← py_pow2 Vph;
       X_2' ← py_pow2 (X1 + X2);
       Ok ((lit 3 0 * Vph_2 * Rr / s_val)
           / (omega_sync * (np_pow2 (Rs + Rr / s_val) + X_2')))
     else Ok (lit 0 0));
  ratio ← (if numpy then Ok ((Rs + Rr_s) / Z_s) else py_div (Rs + Rr_s) Z_s);
  let P_in_s := fsqrt (lit 3 0) * V * I_s * ratio in
  let P_out_s := T_s * Ns * (lit 1 0 - s_val) * lit 2 0 * math_pi / lit 60 0 in
  let eff_s := if P_in_s >? lit 0 0 then P_out_s / P_in_s * lit 100 0 else lit 0 0 in
  Ok (append_sample c T_s (I_s * fsqrt (lit 3 0)) P_out_s (min100 eff_s)).

Definition simulate_ac_motor (param_vars : param_store) : result results :=
  V ← get_parameter_value param_vars "rated_voltage" (lit 220 0);
  I_rated ← get_parameter_value param_vars "rated_current" (lit 10 0);
  f ← get_parameter_value param_vars "frequency" (lit 50 0);
  poles ← get_parameter_value param_vars "poles" (lit 4 0);
  P_poles ← py_int poles;
  Rs ← get_parameter_value param_vars "stator_resistance" (lit 12 (-1));
  Rr ← get_parameter_value param_vars "rotor_resistance" (lit 8 (-1));
  Im ← get_parameter_value param_vars "magnetizing_current" (lit 3 0);
  slip_percent ← get_parameter_value param_vars "slip" (lit 3 0);
  T_load ← get_parameter_value param_vars "load_torque" (lit 10 0);
  (* synchronous speed *)
  Ns ← py_div (lit 120 0 * f) (of_Z P_poles);
  let omega_sync := Ns * lit 2 0 * math_pi / lit 60 0 in
  (* slip and rotor speed *)
  let s := slip_percent / lit 100 0 in
  let Nr := Ns * (lit 1 0 - s) in
  let omega_r := Nr * lit 2 0 * math_pi / lit 60 0 in
  (* simplified equivalent circuit *)
  Xm ← py_div V (Im * fsqrt (lit 3 0));
  let X1 := lit 1 (-1) * Xm in
  let X2 := lit 1 (-1) * Xm in
  Rr_prime ← (if s >? lit 0 0 then py_div Rr s else Ok f_inf);
  R_2 ← py_pow2 (Rs + Rr_prime);
  X_2 ← py_pow2 (X1 + X2);
  Z ← py_sqrt (R_2 + X_2);
  let Vph := V / fsqrt (lit 3 0) in
  I1 ← (if Z >? lit 0 0 then py_div Vph Z else Ok (lit 0 0));
  power_factor ← (if Z >? lit 0 0 then py_div (Rs + Rr_prime) Z else Ok (lit 0 0));
  let P_input := fsqrt (lit 3 0) * V * I1 * power_factor in
  I1_2 ← py_pow2 I1;
  let P_ag := P_input - lit 3 0 * I1_2 * Rs in
  let P_rcl := s * P_ag in
  let P_mech := P_ag - P_rcl in
  T_developed ← (if omega_r >? lit 0 0 then py_div P_mech omega_r else Ok (lit 0 0));
  let P_core := lit 3 (-2) * P_input in
  let P_fw := lit 1 (-2) * P_input in
  let P_output := P_mech - P_fw in
  T_output ← (if omega_r >? lit 0 0 then py_div P_output omega_r else Ok (lit 0 0));
  let P_loss := P_input - P_output in
  efficiency ←
    (if P_input >? lit 0 0
     then q ← py_div P_output P_input; Ok (q * lit 100 0)
     else Ok (lit 0 0));
  (* temperature *)
  let thermal_resistance := lit 6 0 in
  let temp_rise := P_loss * thermal_resistance in
  ambient_temp ← get_parameter_value param_vars "ambient_temp" (lit 40 0);
  let operating_temp := ambient_temp + temp_rise in
  (* torque-slip characteristic *)
  let slip_range := linspace (lit 1 (-3)) (lit 1 0) 50 in
  let speed_range := map (fun s_val => Ns * (lit 1 0 - s_val)) slip_range in
  c ← for_each (ac_sweep_body V Rs Rr X1 X2 Vph Ns omega_sync) slip_range no_curves;
  I1_2' ← py_pow2 I1;
  Ok {| motor_type := "AC Induction Motor (3-Phase)";
        timestamp := None;
        input_voltage := V;
        input_current := I1 * fsqrt (lit 3 0);
        input_power := P_input;
        output_power := P_output;
        mechanical_power := P_mech;
        efficiency := efficiency;
        speed_rpm := Nr;
        speed_rad_s := omega_r;
        torque := T_output;
        load_torque := T_load;
        developed_torque := T_developed;
        core_loss := P_core;
        mechanical_loss := P_fw;
        total_loss := P_loss;
        operating_temp := operating_temp;
        temp_rise := temp_rise;
        power_factor := power_factor;
        speed_range := speed_range;
        torque_curve := c_torque c;
        current_curve := c_current c;
        power_curve := c_power c;
        efficiency_curve := c_efficiency c;
        specific :=
          ACKeys Ns (s * lit 100 0) f P_poles I1
                 (lit 3 0 * I1_2' * Rs) P_rcl P_ag |}.

(** ** Performance rating *)

Record rating : Type := mkRating {
  score : Z;
  grade : string;
  assessment : string
}.

Definition str_upper (text : string) : string :=
  string_of_list_ascii (map upper (list_ascii_of_string text)).

Definition temp_limits : gmap string Z :=
  list_to_map [("A", 105%Z); ("B", 130%Z); ("F", 155%Z); ("H", 180%Z)].

(** [temp / limit] divides by an entry of [temp_limits] or by 155, never
    by zero, so the quotient is written with [fdiv]. *)
Definition calculate_performance_rating
    (param_vars : param_store) (r : results) : result rating :=
  let score := 0%Z in
  (* efficiency, 40 points *)
  let eff := efficiency r in
  let score :=
    if eff >=? lit 90 0 then (score + 40)%Z
    else if eff >=? lit 80 0 then (score + 35)%Z
    else if eff >=? lit 70 0 then (score + 25)%Z
    else if eff >=? lit 60 0 then (score + 15)%Z
    else (score + 5)%Z in
  (* power factor, 30 points *)
  let pf := power_factor r in
  let score :=
    if pf >=? lit 95 (-2) then (score + 30)%Z
    else if pf >=? lit 85 (-2) then (score + 25)%Z
    else if pf >=? lit 75 (-2) then (score + 15)%Z
    else (score + 5)%Z in
  (* temperature, 30 points *)
  let temp := operating_temp r in
  text ← lookup_var param_vars "insulation_class";
  let insulation_class := str_upper text in
  let limit := default 155%Z (temp_limits !! insulation_class) in
  let temp_ratio := temp / of_Z limit in
  let score :=
    if temp_ratio <? lit 7 (-1) then (score + 30)%Z
    else if temp_ratio <? lit 85 (-2) then (score + 20)%Z
    else if temp_ratio <? lit 10 (-1) then (score + 10)%Z
    else (score + 0)%Z in
  (* grade *)
  Ok (if (90 <=? score)%Z then mkRating score "A+ (Excellent)" "Outstanding performance"
      else if (80 <=? score)%Z then mkRating score "A (Very Good)" "Very good performance"
      else if (70 <=? score)%Z then mkRating score "B (Good)" "Good performance"
      else if (60 <=? score)%Z then mkRating score "C (Acceptable)" "Acceptable performance"
      else mkRating score "D (Poor)" "Needs improvement").

(** ** Running a simulation

    The widgets are outside the calculation core: [gui] holds what a run
    asks of them, each call free to raise.  [display_results] writes the
    report, which includes the rating. *)

Record gui : Type := mkGui {
  results_text_delete : result unit;
  results_text_report : results -> result unit;
  results_text_rating : rating -> result unit;
  update_visualizations : results -> result unit
}.

Record app : Type := mkApp {
  app_motor_type : string;
  param_vars : param_store;
  simulation_history : list results
}.

Definition display_results (g : gui) (param_vars : param_store) (r : results)
    : result unit :=
  _ ← results_text_delete g;
  _ ← results_text_report g r;
  rating ← calculate_performance_rating param_vars r;
  results_text_rating g rating.

(** [results['timestamp'] = now; results['motor_type'] = motor_type] *)
Definition stamp (r : results) (now motor_type : string) : results :=
  {| motor_type := motor_type;
     timestamp := Some now;
     input_voltage := input_voltage r;
     input_current := input_current r;
     input_power := input_power r;
     output_power := output_power r;
     mechanical_power := mechanical_power r;
     efficiency := efficiency r;
     speed_rpm := speed_rpm r;
     speed_rad_s := speed_rad_s r;
     torque := torque r;
     load_torque := load_torque r;
     developed_torque := developed_torque r;
     core_loss := core_loss r;
     mechanical_loss := mechanical_loss r;
     total_loss := total_loss r;
     operating_temp := operating_temp r;
     temp_rise := temp_rise r;
     power_factor := power_factor r;
     speed_range := speed_range r;
     torque_curve := torque_curve r;
     current_curve := current_curve r;
     power_curve := power_curve r;
     efficiency_curve := efficiency_curve r;
     specific := specific r |}.

(** The [try] block of [run_simulation]: the new history, or the
    exception that left the block. *)
Definition run_simulation_try (g : gui) (now : string) (a : app)
    : result (list results) :=
  _ ← results_text_delete g;
  let motor_type := app_motor_type a in
  r ← (if String.eqb motor_type "DC"
       then simulate_dc_motor (param_vars a)
       else simulate_ac_motor (param_vars a));
  _ ← display_results g (param_vars a) r;
  _ ← update_visualizations g r;
  let r := stamp r now motor_type in
  Ok (simulation_history a ++ [r]).

(** [run_simulation] returns the application after the run together with
    the error its [except] clause reports, if any. *)
Definition run_simulation (g : gui) (now : string) (a : app) : app * option exn :=
  match run_simulation_try g now a with
  | Ok history => (mkApp (app_motor_type a) (param_vars a) history, None)
  | Raise e => (a, Some e)
  end.

(** What the user does between two looks at the history: run a
    simulation, edit an entry field, or pick the other motor type. *)
Inductive event : Type :=
  | RunSimulation (g : gui) (now : string)
  | EditParameter (key text : string)
  | SelectMotorType (motor_type : string).

Definition handle (a : app) (ev : event) : app :=
  match ev with
  | RunSimulation g now => fst (run_simulation g now a)
  | EditParameter key text =>
      mkApp (app_motor_type a) (<[key := text]> (param_vars a)) (simulation_history a)
  | SelectMotorType motor_type =>
      mkApp motor_type (param_vars a) (simulation_history a)
  end.

End Generic.

Arguments lit : simpl never.
Arguments of_Z : simpl never.
Arguments type_specific : clear implicits.
Arguments results : clear implicits.
Arguments curves : clear implicits.
Arguments gui : clear implicits.
Arguments app : clear implicits.
Arguments event : clear implicits.

Infix ">?" := fgtb (at level 70) : py_scope.
Infix ">=?" := fgeb (at level 70) : py_scope.

(** The store the interface starts with: the text each entry field is
    created with ([create_parameter_inputs]). *)
Definition default_store : param_store :=
  list_to_map
    [("rated_voltage", "220"); ("rated_current", "10"); ("rated_power", "2200");
     ("rated_speed", "1500"); ("rated_torque", "14.0"); ("load_torque", "10.0");
     ("frame_size", "100"); ("rotor_inertia", "0.001"); ("weight", "15");
     ("insulation_class", "F"); ("duty_cycle", "100"); ("ambient_temp", "40");
     ("armature_resistance", "1.5"); ("field_resistance", "100");
     ("back_emf_constant", "0.8"); ("torque_constant", "0.8");
     ("frequency", "50"); ("poles", "4"); ("stator_resistance", "1.2");
     ("rotor_resistance", "0.8"); ("magnetizing_current", "3.0");
     ("slip", "3.0")].

(** * Properties *)

(** ** The result monad *)

Lemma bind_Ok {A B : Type} (m : result A) (f : A -> result B) (y : B) :
  m ≫= f = Ok y -> exists x, m = Ok x /\ f x = Ok y.
Proof. destruct m as [x|e]; simpl; [eauto | discriminate]. Qed.

Lemma bind_Raise {A B : Type} (m : result A) (f : A -> result B) (e : exn) :
  m ≫= f = Raise e -> m = Raise e \/ exists x, m = Ok x /\ f x = Raise e.
Proof. destruct m as [x|e']; simpl; [eauto | intros [= ->]; auto]. Qed.

(** Splits a hypothesis [x ← m; k = Ok y] into [m = Ok x] and [k = Ok y],
    as often as it applies. *)
Ltac split_binds :=
  repeat match goal with
  | H : _ ≫= _ = Ok _ |- _ =>
      let x := fresh "x" in
      let E := fresh "E" in
      apply bind_Ok in H; destruct H as (x & E & H); cbv beta in H
  end.

(** ** Parameter lookup *)

Section Lookup.
Context {F : Type} `{PyFloat F}.

(** The value a lookup yields. *)
Definition param (param_vars : param_store) (key : string) (dflt : F) : F :=
  match param_vars !! key with
  | Some text =>
      match float_of_string text with
      | Some x => x
      | None => dflt
      end
  | None => dflt
  end.

Lemma get_parameter_value_param (param_vars : param_store) key (dflt : F) :
  get_parameter_value param_vars key dflt = Ok (param param_vars key dflt).
Proof.
  unfold get_parameter_value, param, lookup_var, py_float.
  destruct (param_vars !! key) as [text|]; simpl; [|reflexivity].
  destruct (float_of_string text); reflexivity.
Qed.



Lemma get_parameter_value_total (param_vars : param_store) key (dflt : F) :
  exists x, get_parameter_value param_vars key dflt = Ok x.
Proof. rewrite get_parameter_value_param. eauto. Qed.

End Lookup.

(** ** Performance rating *)

Section Rating.
Context {F : Type} `{PyFloat F}.

(** C9: the total score lies between 10 and 100, whatever the bundle: the
    efficiency and the power-factor tables give at least 5 points each.
    The evaluator raises only when the store has no insulation class. *)
Theorem rating_score_bounds (param_vars : param_store) (r : results F) :
  match calculate_performance_rating param_vars r with
  | Ok rt => (10 <= score rt <= 100)%Z
  | Raise e => e = KeyError "insulation_class"
               /\ param_vars !! "insulation_class" = None
  end.
Proof.
  unfold calculate_performance_rating, lookup_var.
  destruct (param_vars !! "insulation_class") as [text|]; simpl; [|auto].
  repeat match goal with
  | |- context [if ?b then _ else _] => destruct b; simpl
  end; lia.
Qed.

End Rating.

(** ** Running a simulation *)

Section Run.
Context {F : Type} `{PyFloat F}.

Lemma run_simulation_try_appends (g : gui F) now (a : app F) history :
  run_simulation_try g now a = Ok history ->
  exists b, history = simulation_history a ++ [b].
Proof.
  unfold run_simulation_try. intros Htry. split_binds.
  injection Htry as <-. eauto.
Qed.

Lemma handle_history_prefix (a : app F) (ev : event F) :
  simulation_history a `prefix_of` simulation_history (handle a ev).
Proof.
  destruct ev as [g now| |]; simpl; try reflexivity.
  unfold run_simulation.
  destruct (run_simulation_try g now a) as [history|e] eqn:Htry; simpl.
  - apply run_simulation_try_appends in Htry as [b ->]. by apply prefix_app_r.
  - reflexivity.
Qed.

(** The engine the motor-type flag selects. *)
Definition selected_engine (a : app F) : result (results F) :=
  if String.eqb (app_motor_type a) "DC"
  then simulate_dc_motor (param_vars a)
  else simulate_ac_motor (param_vars a).

(** C8: a run is atomic for the history.  When it completes, the history
    is the old one with exactly one bundle appended, the stamped result of
    the selected engine; when any step of it raises, the error is reported
    and the history is the old one.  Across any sequence of runs and edits
    the history only grows at its end. *)
Theorem run_simulation_atomic (g : gui F) (now : string) (a : app F) :
  (match run_simulation g now a with
   | (a', None) =>
       exists r, selected_engine a = Ok r
         /\ simulation_history a'
            = simulation_history a ++ [stamp r now (app_motor_type a)]
   | (a', Some e) =>
       run_simulation_try g now a = Raise e
       /\ simulation_history a' = simulation_history a
   end)
  /\ forall evs : list (event F),
       simulation_history a `prefix_of` simulation_history (fold_left handle evs a).
Proof.
  split.
  - unfold run_simulation.
    destruct (run_simulation_try g now a) as [history|e] eqn:Htry; simpl; [|auto].
    unfold run_simulation_try in Htry. split_binds. injection Htry as <-.
    eexists. split; [exact E0 | reflexivity].
  - intros evs. revert a. induction evs as [|ev evs IH]; intros a; simpl.
    + reflexivity.
    + etrans; [apply handle_history_prefix | apply IH].
Qed.

End Run.

(** ** The sweeps *)

Section Sweeps.
Context {F : Type} `{PyFloat F}.

Local Open Scope py_scope.

Lemma length_set_last (l : list F) (x : F) : length (set_last l x) = length l.
Proof.
  induction l as [|y l IH]; [reflexivity|].
  destruct l as [|z l]; [reflexivity|]. simpl in *. by rewrite IH.
Qed.

Lemma length_linspace (start stop : F) (num : nat) :
  length (linspace start stop num) = num.
Proof.
  unfold linspace.
  repeat match goal with
  | |- context [if ?b then _ else _] => destruct b
  end; rewrite ?length_set_last, !length_map, length_seq; reflexivity.
Qed.

(** Two runs of samples, one after the other. *)
Definition curves_app (c d : curves F) : curves F :=
  mkCurves (c_torque c ++ c_torque d) (c_current c ++ c_current d)
           (c_power c ++ c_power d) (c_efficiency c ++ c_efficiency d).

Lemma curves_app_no_curves_l (c : curves F) : curves_app no_curves c = c.
Proof. by destruct c. Qed.

Lemma curves_app_no_curves_r (c : curves F) : curves_app c no_curves = c.
Proof. destruct c. unfold curves_app. simpl. by rewrite !app_nil_r. Qed.

Lemma curves_app_assoc (c d e : curves F) :
  curves_app (curves_app c d) e = curves_app c (curves_app d e).
Proof. unfold curves_app. simpl. by rewrite <- !app_assoc. Qed.

(** A run of samples is well formed when its four lists have one entry
    per sample. *)
Definition samples (n : nat) (c : curves F) : Prop :=
  length (c_torque c) = n /\ length (c_current c) = n
  /\ length (c_power c) = n /\ length (c_efficiency c) = n.

Lemma samples_app (n m : nat) (c d : curves F) :
  samples n c -> samples m d -> samples (n + m) (curves_app c d).
Proof.
  unfold samples, curves_app. simpl. rewrite !length_app.
  intros (-> & -> & -> & ->) (-> & -> & -> & ->). auto.
Qed.



(** *** DC sweep *)

(** What the loop body computes from the speed [n] alone. *)
Definition dc_sample (V V_armature Ra Ke Kt n : F) : curves F :=
  dc_sweep_body V V_armature Ra Ke Kt no_curves n.

Lemma dc_sweep_body_sample (V Va Ra Ke Kt : F) (c : curves F) (n : F) :
  dc_sweep_body V Va Ra Ke Kt c n = curves_app c (dc_sample V Va Ra Ke Kt n).
Proof. reflexivity. Qed.

Lemma samples_dc_sample (V Va Ra Ke Kt n : F) :
  samples 1 (dc_sample V Va Ra Ke Kt n).
Proof. repeat split. Qed.

Fixpoint dc_samples (V Va Ra Ke Kt : F) (l : list F) : curves F :=
  match l with
  | [] => no_curves
  | n :: l' => curves_app (dc_sample V Va Ra Ke Kt n) (dc_samples V Va Ra Ke Kt l')
  end.

Lemma dc_sweep_samples (V Va Ra Ke Kt : F) (l : list F) (c : curves F) :
  fold_left (dc_sweep_body V Va Ra Ke Kt) l c
  = curves_app c (dc_samples V Va Ra Ke Kt l).
Proof.
  revert c. induction l as [|n l IH]; intros c; simpl.
  - by rewrite curves_app_no_curves_r.
  - by rewrite IH, dc_sweep_body_sample, curves_app_assoc.
Qed.

Lemma samples_dc_samples (V Va Ra Ke Kt : F) (l : list F) :
  samples (length l) (dc_samples V Va Ra Ke Kt l).
Proof.
  induction l as [|n l IH]; simpl; [repeat split|].
  apply (samples_app 1); [apply samples_dc_sample | exact IH].
Qed.

Lemma dc_samples_lookup (V Va Ra Ke Kt : F) (l : list F) (i : nat) (n : F) :
  l !! i = Some n ->
  let c := dc_samples V Va Ra Ke Kt l in
  let d := dc_sample V Va Ra Ke Kt n in
  c_torque c !! i = c_torque d !! 0%nat
  /\ c_current c !! i = c_current d !! 0%nat
  /\ c_power c !! i = c_power d !! 0%nat
  /\ c_efficiency c !! i = c_efficiency d !! 0%nat.
Proof.
  revert i. induction l as [|m l IH]; intros i Hi; [discriminate|].
  destruct i as [|i]; simpl in Hi.
  - injection Hi as ->. repeat split.
  - apply (IH i Hi).
Qed.

(** *** AC sweep *)

Definition ac_sample (V Rs Rr X1 X2 Vph Ns omega_sync s_val : F) : result (curves F) :=
  ac_sweep_body V Rs Rr X1 X2 Vph Ns omega_sync no_curves s_val.

Lemma ac_sweep_body_sample (V Rs Rr X1 X2 Vph Ns omega_sync : F) (c : curves F) (s_val : F) :
  ac_sweep_body V Rs Rr X1 X2 Vph Ns omega_sync c s_val
  = d ← ac_sample V Rs Rr X1 X2 Vph Ns omega_sync s_val; Ok (curves_app c d).
Proof.
  unfold ac_sample, ac_sweep_body.
  repeat match goal with
  | |- context [mbind _ ?m] => destruct m; simpl; try reflexivity
  end.
Qed.

Lemma samples_ac_sample (V Rs Rr X1 X2 Vph Ns omega_sync s_val : F) (d : curves F) :
  ac_sample V Rs Rr X1 X2 Vph Ns omega_sync s_val = Ok d -> samples 1 d.
Proof.
  unfold ac_sample, ac_sweep_body. intros Hd. split_binds.
  injection Hd as <-. repeat split.
Qed.

Fixpoint ac_samples (V Rs Rr X1 X2 Vph Ns omega_sync : F) (l : list F)
    : result (curves F) :=
  match l with
  | [] => Ok no_curves
  | s_val :: l' =>
      d ← ac_sample V Rs Rr X1 X2 Vph Ns omega_sync s_val;
      ds ← ac_samples V Rs Rr X1 X2 Vph Ns omega_sync l';
      Ok (curves_app d ds)
  end.

Lemma ac_sweep_samples (V Rs Rr X1 X2 Vph Ns omega_sync : F) (l : list F) (c : curves F) :
  for_each (ac_sweep_body V Rs Rr X1 X2 Vph Ns omega_sync) l c
  = ds ← ac_samples V Rs Rr X1 X2 Vph Ns omega_sync l; Ok (curves_app c ds).
Proof.
  revert c. induction l as [|s_val l IH]; intros c; simpl.
  - by rewrite curves_app_no_curves_r.
  - rewrite ac_sweep_body_sample.
    destruct (ac_sample V Rs Rr X1 X2 Vph Ns omega_sync s_val) as [d|e]; simpl;
      [|reflexivity].
    rewrite IH.
    destruct (ac_samples V Rs Rr X1 X2 Vph Ns omega_sync l) as [ds|e]; simpl;
      [|reflexivity].
    by rewrite curves_app_assoc.
Qed.

Lemma samples_ac_samples (V Rs Rr X1 X2 Vph Ns omega_sync : F) (l : list F) (ds : curves F) :
  ac_samples V Rs Rr X1 X2 Vph Ns omega_sync l = Ok ds -> samples (length l) ds.
Proof.
  revert ds. induction l as [|s_val l IH]; intros ds Hds; simpl in Hds.
  - injection Hds as <-. repeat split.
  - split_binds. injection Hds as <-.
    apply (samples_app 1); [by eapply samples_ac_sample | by apply IH].
Qed.

Lemma ac_samples_lookup (V Rs Rr X1 X2 Vph Ns omega_sync : F)
    (l : list F) (ds : curves F) (i : nat) (s_val : F) :
  ac_samples V Rs Rr X1 X2 Vph Ns omega_sync l = Ok ds ->
  l !! i = Some s_val ->
  exists d, ac_sample V Rs Rr X1 X2 Vph Ns omega_sync s_val = Ok d
    /\ c_torque ds !! i = c_torque d !! 0%nat
    /\ c_current ds !! i = c_current d !! 0%nat
    /\ c_power ds !! i = c_power d !! 0%nat
    /\ c_efficiency ds !! i = c_efficiency d !! 0%nat.
Proof.
  revert ds i. induction l as [|t l IH]; intros ds i Hds Hi; [discriminate|].
  simpl in Hds. split_binds. injection Hds as <-.
  destruct i as [|i]; simpl in Hi.
  - injection Hi as ->. exists x. split; [exact E|].
    destruct (samples_ac_sample _ _ _ _ _ _ _ _ _ _ E) as (Ht & Hc & Hp & He).
    unfold curves_app; simpl.
    destruct (c_torque x) as [|? [|]]; try discriminate.
    destruct (c_current x) as [|? [|]]; try discriminate.
    destruct (c_power x) as [|? [|]]; try discriminate.
    destruct (c_efficiency x) as [|? [|]]; try discriminate.
    repeat split.
  - destruct (IH _ _ E0 Hi) as (d & Hd & Ht & Hc & Hp & He).
    exists d. split; [exact Hd|].
    destruct (samples_ac_sample _ _ _ _ _ _ _ _ _ _ E) as (Lt & Lc & Lp & Le).
    unfold curves_app; simpl.
    destruct (c_torque x) as [|? [|]]; try discriminate.
    destruct (c_current x) as [|? [|]]; try discriminate.
    destruct (c_power x) as [|? [|]]; try discriminate.
    destruct (c_efficiency x) as [|? [|]]; try discriminate.
    simpl. auto.
Qed.

(** *** The engines' curves *)

(** The five curve sequences of a bundle have [n] entries each. *)
Definition parallel (n : nat) (b : results F) : Prop :=
  length (speed_range b) = n /\ length (torque_curve b) = n
  /\ length (current_curve b) = n /\ length (power_curve b) = n
  /\ length (efficiency_curve b) = n.

(** Entry [i] of the four derived curves is the sample [d]. *)
Definition sample_at (b : results F) (i : nat) (d : curves F) : Prop :=
  torque_curve b !! i = c_torque d !! 0%nat
  /\ current_curve b !! i = c_current d !! 0%nat
  /\ power_curve b !! i = c_power d !! 0%nat
  /\ efficiency_curve b !! i = c_efficiency d !! 0%nat.

(** What [simulate_dc_motor] returns, as far as the sweep goes. *)
Lemma simulate_dc_motor_curves (param_vars : param_store) (b : results F) :
  simulate_dc_motor param_vars = Ok b ->
  let V := param param_vars "rated_voltage" (lit 220 0) in
  let Ra := param param_vars "armature_resistance" (lit 15 (-1)) in
  let Ke := param param_vars "back_emf_constant" (lit 8 (-1)) in
  let Kt := param param_vars "torque_constant" (lit 8 (-1)) in
  let N_rated := param param_vars "rated_speed" (lit 1500 0) in
  let c := dc_samples V V Ra Ke Kt (speed_range b) in
  speed_range b = linspace (lit 0 0) (N_rated * lit 12 (-1)) 50
  /\ torque_curve b = c_torque c /\ current_curve b = c_current c
  /\ power_curve b = c_power c /\ efficiency_curve b = c_efficiency c.
Proof.
  unfold simulate_dc_motor. rewrite !get_parameter_value_param. simpl.
  intros Hb. split_binds. injection Hb as <-. simpl.
  rewrite dc_sweep_samples, curves_app_no_curves_l. auto.
Qed.

(** The key [synchronous_speed], which only an AC bundle has. *)
Definition synchronous_speed (b : results F) : option F :=
  match specific b with
  | ACKeys Ns _ _ _ _ _ _ _ => Some Ns
  | DCKeys _ _ _ _ _ _ => None
  end.

(** The locals of [simulate_ac_motor] the sweep depends on. *)
Record ac_frame : Type := mkAcFrame {
  ac_V : F; ac_Rs : F; ac_Rr : F; ac_X1 : F; ac_X2 : F; ac_Vph : F;
  ac_Ns : F; ac_omega_sync : F
}.

Definition ac_frame_of (param_vars : param_store) : result ac_frame :=
  let V := param param_vars "rated_voltage" (lit 220 0) in
  let f := param param_vars "frequency" (lit 50 0) in
  P_poles ← py_int (param param_vars "poles" (lit 4 0));
  let Rs := param param_vars "stator_resistance" (lit 12 (-1)) in
  let Rr := param param_vars "rotor_resistance" (lit 8 (-1)) in
  let Im := param param_vars "magnetizing_current" (lit 3 0) in
  Ns ← py_div (lit 120 0 * f) (of_Z P_poles);
  Xm ← py_div V (Im * fsqrt (lit 3 0));
  Ok (mkAcFrame V Rs Rr (lit 1 (-1) * Xm) (lit 1 (-1) * Xm) (V / fsqrt (lit 3 0))
        Ns (Ns * lit 2 0 * math_pi / lit 60 0)).

Definition slip_range : list F := linspace (lit 1 (-3)) (lit 1 0) 50.

Definition ac_frame_samples (fr : ac_frame) (l : list F) : result (curves F) :=
  ac_samples (ac_V fr) (ac_Rs fr) (ac_Rr fr) (ac_X1 fr) (ac_X2 fr) (ac_Vph fr)
             (ac_Ns fr) (ac_omega_sync fr) l.

Definition ac_frame_sample (fr : ac_frame) (s_val : F) : result (curves F) :=
  ac_sample (ac_V fr) (ac_Rs fr) (ac_Rr fr) (ac_X1 fr) (ac_X2 fr) (ac_Vph fr)
            (ac_Ns fr) (ac_omega_sync fr) s_val.

(** What [simulate_ac_motor] returns, as far as the sweep goes. *)
Lemma simulate_ac_motor_curves (param_vars : param_store) (b : results F) :
  simulate_ac_motor param_vars = Ok b ->
  exists fr ds,
    ac_frame_of param_vars = Ok fr
    /\ ac_frame_samples fr slip_range = Ok ds
    /\ synchronous_speed b = Some (ac_Ns fr)
    /\ speed_range b = map (fun s_val => ac_Ns fr * (lit 1 0 - s_val)) slip_range
    /\ torque_curve b = c_torque ds /\ current_curve b = c_current ds
    /\ power_curve b = c_power ds /\ efficiency_curve b = c_efficiency ds.
Proof.
  unfold simulate_ac_motor, ac_frame_of. rewrite !get_parameter_value_param. simpl.
  intros Hb. split_binds. injection Hb as <-.
  rewrite E; simpl. rewrite E0; simpl. rewrite E1; simpl.
  match goal with
  | Hloop : for_each _ _ _ = Ok _ |- _ =>
      rewrite ac_sweep_samples in Hloop; split_binds; injection Hloop as <-
  end.
  eexists _, _. split; [reflexivity|]. unfold ac_frame_samples, slip_range. simpl.
  split; [eassumption|]. rewrite ?curves_app_no_curves_l. repeat split.
Qed.

(** The shape of a bundle of the DC engine. *)
Lemma dc_bundle_shape (param_vars : param_store) (b : results F) :
  simulate_dc_motor param_vars = Ok b ->
  parallel 50 b /\
  forall i n, speed_range b !! i = Some n ->
    sample_at b i
      (dc_sample (param param_vars "rated_voltage" (lit 220 0))
         (param param_vars "rated_voltage" (lit 220 0))
         (param param_vars "armature_resistance" (lit 15 (-1)))
         (param param_vars "back_emf_constant" (lit 8 (-1)))
         (param param_vars "torque_constant" (lit 8 (-1))) n).
Proof.
  intros Hdc. apply simulate_dc_motor_curves in Hdc. simpl in Hdc.
  destruct Hdc as (Hs & Ht & Hc & Hp & He).
  assert (Hlen : length (speed_range b) = 50%nat)
    by (rewrite Hs; apply length_linspace).
  split.
  - unfold parallel. rewrite Ht, Hc, Hp, He.
    pose proof (samples_dc_samples
      (param param_vars "rated_voltage" (lit 220 0))
      (param param_vars "rated_voltage" (lit 220 0))
      (param param_vars "armature_resistance" (lit 15 (-1)))
      (param param_vars "back_emf_constant" (lit 8 (-1)))
      (param param_vars "torque_constant" (lit 8 (-1)))
      (speed_range b)) as Hsm.
    rewrite Hlen in Hsm. destruct Hsm as (? & ? & ? & ?). auto.
  - intros i n Hi. unfold sample_at. rewrite Ht, Hc, Hp, He.
    by apply dc_samples_lookup.
Qed.

(** The shape of a bundle of the AC engine. *)
Lemma ac_bundle_shape (param_vars : param_store) (b : results F) :
  simulate_ac_motor param_vars = Ok b ->
  parallel 50 b /\
  exists fr, ac_frame_of param_vars = Ok fr /\
    forall i s_val, slip_range !! i = Some s_val ->
      speed_range b !! i = Some (ac_Ns fr * (lit 1 0 - s_val))
      /\ exists d, ac_frame_sample fr s_val = Ok d /\ sample_at b i d.
Proof.
  intros Hac. apply simulate_ac_motor_curves in Hac.
  destruct Hac as (fr & ds & Hfr & Hds & _ & Hs & Ht & Hc & Hp & He).
  assert (Hlen : length slip_range = 50%nat) by apply length_linspace.
  split.
  - unfold parallel. rewrite Hs, Ht, Hc, Hp, He, length_map, Hlen.
    apply samples_ac_samples in Hds. rewrite Hlen in Hds.
    destruct Hds as (? & ? & ? & ?). auto.
  - exists fr. split; [exact Hfr|]. intros i s_val Hi. split.
    + rewrite Hs, list_lookup_fmap, Hi. reflexivity.
    + destruct (ac_samples_lookup _ _ _ _ _ _ _ _ _ _ _ _ Hds Hi)
        as (d & Hd & Hsample).
      exists d. split.
      * exact Hd.
      * unfold sample_at. rewrite Ht, Hc, Hp, He. exact Hsample.
Qed.

(** C6: a bundle either engine returns has five curve sequences of
    length 50 each, and entry [i] of the torque, current, power and
    efficiency curves is what the sweep computes from entry [i] of the
    swept axis: the speed itself for the DC engine, the slip behind that
    speed for the AC engine. *)
Theorem engines_curves_parallel (param_vars : param_store) (b : results F) :
  simulate_dc_motor param_vars = Ok b \/ simulate_ac_motor param_vars = Ok b ->
  parallel 50 b
  /\ (simulate_dc_motor param_vars = Ok b ->
      forall i n, speed_range b !! i = Some n ->
        let V := param param_vars "rated_voltage" (lit 220 0) in
        let Ra := param param_vars "armature_resistance" (lit 15 (-1)) in
        let Ke := param param_vars "back_emf_constant" (lit 8 (-1)) in
        let Kt := param param_vars "torque_constant" (lit 8 (-1)) in
        sample_at b i (dc_sample V V Ra Ke Kt n))
  /\ (simulate_ac_motor param_vars = Ok b ->
      exists fr, ac_frame_of param_vars = Ok fr /\
        forall i s_val, slip_range !! i = Some s_val ->
          speed_range b !! i = Some (ac_Ns fr * (lit 1 0 - s_val))
          /\ exists d, ac_frame_sample fr s_val = Ok d /\ sample_at b i d).
Proof.
  intros Hb.
  split; [destruct Hb as [Hb|Hb];
          [apply (dc_bundle_shape _ _ Hb) | apply (ac_bundle_shape _ _ Hb)]|].
  split.
  - intros Hdc. apply (dc_bundle_shape _ _ Hdc).
  - intros Hac. apply (ac_bundle_shape _ _ Hac).
Qed.

End Sweeps.

(** ** Efficiency *)

Section Efficiency.
Context {F : Type} `{PyFloat F}.

Local Open Scope py_scope.

(** [(P_out / P_in * 100) if P_in > 0 else 0], without and with Python's
    division. *)
Definition ratio_percent (P_out P_in : F) : F :=
  if P_in >? lit 0 0 then P_out / P_in * lit 100 0 else lit 0 0.

Lemma guarded_ratio_percent (P_out P_in e : F) :
  (if P_in >? lit 0 0 then q ← py_div P_out P_in; Ok (q * lit 100 0)
   else Ok (lit 0 0)) = Ok e ->
  e = ratio_percent P_out P_in.
Proof.
  unfold ratio_percent, py_div. destruct (P_in >? lit 0 0).
  - destruct (P_in =? lit 0 0); simpl; [discriminate | by intros [= <-]].
  - by intros [= <-].
Qed.

Lemma simulate_dc_motor_efficiency (param_vars : param_store) (b : results F) :
  simulate_dc_motor param_vars = Ok b ->
  efficiency b = ratio_percent (output_power b) (input_power b).
Proof.
  unfold simulate_dc_motor. rewrite !get_parameter_value_param. simpl.
  intros Hb. split_binds. injection Hb as <-. simpl.
  by apply guarded_ratio_percent.
Qed.

Lemma simulate_ac_motor_efficiency (param_vars : param_store) (b : results F) :
  simulate_ac_motor param_vars = Ok b ->
  efficiency b = ratio_percent (output_power b) (input_power b).
Proof.
  unfold simulate_ac_motor. rewrite !get_parameter_value_param. simpl.
  intros Hb. split_binds. injection Hb as <-. simpl.
  by apply guarded_ratio_percent.
Qed.

(** A sample of either sweep holds an output power [P_out] and the
    clamped efficiency computed from it. *)
Definition clamped_sample (d : curves F) : Prop :=
  exists P_out P_in,
    c_power d = [P_out]
    /\ c_efficiency d = [min100 (ratio_percent P_out P_in)].

Lemma dc_sample_clamped (V Va Ra Ke Kt n : F) :
  clamped_sample (dc_sample V Va Ra Ke Kt n).
Proof. eexists _, _. split; reflexivity. Qed.

Lemma ac_sample_clamped (V Rs Rr X1 X2 Vph Ns omega_sync s_val : F) (d : curves F) :
  ac_sample V Rs Rr X1 X2 Vph Ns omega_sync s_val = Ok d -> clamped_sample d.
Proof.
  unfold ac_sample, ac_sweep_body. intros Hd. split_binds.
  injection Hd as <-. eexists _, _. split; reflexivity.
Qed.

(** Entry [i] of the efficiency curve of a returned bundle is a clamped
    sample of entry [i] of its power curve. *)
Lemma engines_clamped (param_vars : param_store) (b : results F) (i : nat) (e : F) :
  simulate_dc_motor param_vars = Ok b \/ simulate_ac_motor param_vars = Ok b ->
  efficiency_curve b !! i = Some e ->
  exists P_out P_in,
    power_curve b !! i = Some P_out /\ e = min100 (ratio_percent P_out P_in).
Proof.
  intros Hb He.
  assert (Hd : exists d, clamped_sample d /\ sample_at b i d).
  { destruct Hb as [Hb|Hb].
    - destruct (dc_bundle_shape _ _ Hb) as ((Ls & _ & _ & _ & Le) & Hdc).
      assert (Hi : (i < 50)%nat) by (rewrite <- Le; by eapply lookup_lt_Some).
      destruct (lookup_lt_is_Some_2 (speed_range b) i) as [n Hn]; [lia|].
      eexists. split; [|exact (Hdc i n Hn)]. apply dc_sample_clamped.
    - destruct (ac_bundle_shape _ _ Hb) as ((_ & _ & _ & _ & Le) & fr & _ & Hsl).
      assert (Hi : (i < 50)%nat) by (rewrite <- Le; by eapply lookup_lt_Some).
      destruct (lookup_lt_is_Some_2 slip_range i) as [s_val Hs];
        [unfold slip_range; rewrite length_linspace; lia|].
      destruct (Hsl i s_val Hs) as (_ & d & Hd & Hat).
      exists d. split; [by eapply ac_sample_clamped | exact Hat]. }
  destruct Hd as (d & (P_out & P_in & HP & HE) & (_ & _ & Hp & Heff)).
  exists P_out, P_in. rewrite Hp, HP. split; [reflexivity|].
  rewrite Heff, HE in He. by injection He as <-.
Qed.

End Efficiency.

Arguments ac_frame : clear implicits.

(** ** The report and the history

    [display_results] writes the report; here it is read for what it
    takes from the bundle and in which order, each f-string kept as its
    parts and the number formats as the digits they ask for. *)

Section Report.
Context {F : Type} `{PyFloat F}.

Local Open Scope py_scope.

Inductive part : Type :=
  | Str (text : string)
  | Num (x : F) (decimals : nat)
  | IntNum (z : Z) (decimals : nat)
  | Newline.

(** One [results_text.insert]: its parts and its tag. *)
Record item : Type := mkItem {
  item_parts : list part;
  item_tag : string
}.

Definition times (n : nat) (text : string) : string :=
  fold_right String.append "" (replicate n text).

(** [results[key]] on a key only one motor type has. *)
Definition dc_key (r : results F) (key : string) : result F :=
  match specific r with
  | DCKeys armature_current field_current back_emf
           armature_loss field_loss current_density =>
      if String.eqb key "armature_current" then Ok armature_current
      else if String.eqb key "field_current" then Ok field_current
      else if String.eqb key "back_emf" then Ok back_emf
      else if String.eqb key "armature_loss" then Ok armature_loss
      else if String.eqb key "field_loss" then Ok field_loss
      else if String.eqb key "current_density" then Ok current_density
      else Raise (KeyError key)
  | ACKeys _ _ _ _ _ _ _ _ => Raise (KeyError key)
  end.

Definition ac_key (r : results F) (key : string) : result F :=
  match specific r with
  | ACKeys synchronous_speed slip frequency poles
           stator_current stator_loss rotor_loss air_gap_power =>
      if String.eqb key "synchronous_speed" then Ok synchronous_speed
      else if String.eqb key "slip" then Ok slip
      else if String.eqb key "frequency" then Ok frequency
      else if String.eqb key "stator_current" then Ok stator_current
      else if String.eqb key "stator_loss" then Ok stator_loss
      else if String.eqb key "rotor_loss" then Ok rotor_loss
      else if String.eqb key "air_gap_power" then Ok air_gap_power
      else Raise (KeyError key)
  | DCKeys _ _ _ _ _ _ => Raise (KeyError key)
  end.

Definition value_line (label : string) (x : F) (decimals : nat) (unit_ : string)
    : item :=
  mkItem [Str label; Num x decimals; Str unit_; Newline] "value".

Definition subheader (text : string) : item :=
  mkItem [Newline; Str text; Newline] "subheader".

Definition display_results_items (now : string) (param_vars : param_store)
    (r : results F) : result (list item) :=
  let header :=
    [mkItem [Str ("╔" ++ times 48 "═" ++ "╗"); Newline] "header";
     mkItem [Str ("║" ++ "             MOTOR SIMULATION RESULTS           " ++ "║"); Newline] "header";
     mkItem [Str ("╚" ++ times 48 "═" ++ "╝"); Newline; Newline] "header";
     mkItem [Str "Motor Type: "; Str (motor_type r); Newline; Newline] "subheader";
     mkItem [Str "━━━ ELECTRICAL PARAMETERS ━━━"; Newline] "subheader";
     value_line "Input Voltage:        " (input_voltage r) 2 " V";
     value_line "Input Current:        " (input_current r) 2 " A";
     value_line "Input Power:          " (input_power r) 2 " W";
     value_line "Power Factor:         " (power_factor r) 3 ""] in
  electrical ←
    (if String.eqb (motor_type r) "DC Motor" then
       armature_current ← dc_key r "armature_current";
       field_current ← dc_key r "field_current";
       back_emf ← dc_key r "back_emf";
       Ok [value_line "Armature Current:     " armature_current 2 " A";
           value_line "Field Current:        " field_current 2 " A";
           value_line "Back EMF:             " back_emf 2 " V"]
     else
       frequency ← ac_key r "frequency";
       synchronous_speed ← ac_key r "synchronous_speed";
       slip ← ac_key r "slip";
       air_gap_power ← ac_key r "air_gap_power";
       Ok [value_line "Frequency:            " frequency 1 " Hz";
           value_line "Synchronous Speed:    " synchronous_speed 1 " RPM";
           value_line "Slip:                 " slip 2 " %";
           value_line "Air Gap Power:        " air_gap_power 2 " W"]);
  let mechanical :=
    [subheader "━━━ MECHANICAL PARAMETERS ━━━";
     value_line "Operating Speed:      " (speed_rpm r) 2 " RPM";
     value_line "Angular Velocity:     " (speed_rad_s r) 2 " rad/s";
     value_line "Output Torque:        " (torque r) 2 " Nm";
     value_line "Load Torque:          " (load_torque r) 2 " Nm";
     value_line "Developed Torque:     " (developed_torque r) 2 " Nm";
     subheader "━━━ POWER ANALYSIS ━━━";
     value_line "Mechanical Power:     " (mechanical_power r) 2 " W";
     value_line "Output Power:         " (output_power r) 2 " W";
     value_line "Efficiency:           " (efficiency r) 2 " %"] in
  let efficiency_status :=
    if efficiency r >? lit 85 0
    then mkItem [Str "Status:               ✓ Excellent"; Newline] "value"
    else if efficiency r >? lit 70 0
    then mkItem [Str "Status:               ⚠ Good"; Newline] "warning"
    else mkItem [Str "Status:               ✗ Poor - Check Parameters"; Newline] "error" in
  losses ←
    (if String.eqb (motor_type r) "DC Motor" then
       armature_loss ← dc_key r "armature_loss";
       field_loss ← dc_key r "field_loss";
       Ok [value_line "Armature Loss:        " armature_loss 2 " W";
           value_line "Field Loss:           " field_loss 2 " W"]
     else
       stator_loss ← ac_key r "stator_loss";
       rotor_loss ← ac_key r "rotor_loss";
       Ok [value_line "Stator Loss:          " stator_loss 2 " W";
           value_line "Rotor Loss:           " rotor_loss 2 " W"]);
  loss_percentage ←
    (if input_power r >? lit 0 0
     then q ← py_div (total_loss r) (input_power r); Ok (q * lit 100 0)
     else Ok (lit 0 0));
  let totals :=
    [value_line "Core Loss:            " (core_loss r) 2 " W";
     value_line "Mechanical Loss:      " (mechanical_loss r) 2 " W";
     value_line "Total Losses:         " (total_loss r) 2 " W";
     value_line "Loss Percentage:      " loss_percentage 2 " %";
     subheader "━━━ THERMAL ANALYSIS ━━━";
     value_line "Temperature Rise:     " (temp_rise r) 2 " °C";
     value_line "Operating Temp:       " (operating_temp r) 2 " °C"] in
  text ← lookup_var param_vars "insulation_class";
  let insulation_class := str_upper text in
  let limit := default 155%Z (temp_limits !! insulation_class) in
  let thermal_status :=
    if operating_temp r <? of_Z limit * lit 8 (-1)
    then mkItem [Str "Status:               ✓ Safe (Limit: "; IntNum limit 0;
                 Str "°C)"; Newline] "value"
    else if operating_temp r <? of_Z limit
    then mkItem [Str "Status:               ⚠ Caution (Limit: "; IntNum limit 0;
                 Str "°C)"; Newline] "warning"
    else mkItem [Str "Status:               ✗ Overheating! (Limit: "; IntNum limit 0;
                 Str "°C)"; Newline] "error" in
  rating ← calculate_performance_rating param_vars r;
  let footer :=
    [subheader "━━━ PERFORMANCE RATING ━━━";
     mkItem [Str "Overall Rating:       "; IntNum (score rating) 1; Str "/100";
             Newline] "value";
     mkItem [Str "Grade:                "; Str (grade rating); Newline] "value";
     mkItem [Str "Assessment:           "; Str (assessment rating); Newline] "value";
     mkItem [Newline; Str (times 50 "═"); Newline] "header";
     mkItem [Str "Simulation completed at: "; Str now; Newline] "value"] in
  Ok (header ++ electrical ++ mechanical ++ [efficiency_status]
      ++ [subheader "━━━ LOSSES BREAKDOWN ━━━"] ++ losses ++ totals
      ++ [thermal_status] ++ footer).

(** *** Loading a saved history

    [load_simulation] shows the last bundle of the chosen file.  The file
    dialog and [json.load] are outside: [chosen] is [None] when the dialog
    was cancelled, else what reading the file gave. *)

Inductive message : Type :=
  | ShowInfo (title : string) (simulations : nat)
  | ShowWarning (title : string)
  | ShowError (title : string) (e : exn).

Definition load_simulation (g : gui F) (now : string)
    (chosen : option (result (list (results F)))) (a : app F)
    : app F * option message :=
  match chosen with
  | None => (a, None)
  | Some file =>
      let outcome :=
        data ← file;
        match last data with
        | Some last_sim =>
            _ ← results_text_delete g;
            _ ← display_results_items now (param_vars a) last_sim;
            _ ← update_visualizations g last_sim;
            Ok (ShowInfo "Success" (length data))
        | None => Ok (ShowWarning "Empty File")
        end in
      match outcome with
      | Ok m => (a, Some m)
      | Raise e => (a, Some (ShowError "Error" e))
      end
  end.

(** *** What the engines put into a bundle *)

Definition is_dc (r : results F) : bool :=
  match specific r with
  | DCKeys _ _ _ _ _ _ => true
  | ACKeys _ _ _ _ _ _ _ _ => false
  end.

Lemma simulate_dc_motor_keys (param_vars : param_store) (b : results F) :
  simulate_dc_motor param_vars = Ok b ->
  motor_type b = "DC Motor" /\ timestamp b = None /\ is_dc b = true
  /\ power_factor b = lit 1 0.
Proof.
  unfold simulate_dc_motor. rewrite !get_parameter_value_param.
  intros Hb. split_binds. injection Hb as <-. auto.
Qed.

Lemma simulate_ac_motor_keys (param_vars : param_store) (b : results F) :
  simulate_ac_motor param_vars = Ok b ->
  motor_type b = "AC Induction Motor (3-Phase)" /\ timestamp b = None
  /\ is_dc b = false.
Proof.
  unfold simulate_ac_motor. rewrite !get_parameter_value_param.
  intros Hb. split_binds. injection Hb as <-. auto.
Qed.

(** *** The history a sequence of events leaves *)

(** What a run records: parallel curves of length 50, a time stamp, and
    the motor-type flag of the run in place of the engine's own label;
    the DC engine ran exactly when the flag was ["DC"]. *)
Definition recorded (b : results F) : Prop :=
  parallel 50 b /\ is_Some (timestamp b)
  /\ (is_dc b = true <-> motor_type b = "DC").

Lemma parallel_stamp (n : nat) (b : results F) (now flag : string) :
  parallel n b -> parallel n (stamp b now flag).
Proof. intros Hb. exact Hb. Qed.

Lemma run_simulation_recorded (g : gui F) (now : string) (a : app F) :
  Forall recorded (simulation_history a) ->
  Forall recorded (simulation_history (fst (run_simulation g now a))).
Proof.
  intros Hinv. unfold run_simulation.
  destruct (run_simulation_try g now a) as [history|e] eqn:Htry; [|exact Hinv].
  simpl. unfold run_simulation_try in Htry. split_binds. injection Htry as <-.
  apply Forall_app. split; [exact Hinv|]. apply Forall_singleton.
  destruct (String.eqb_spec (app_motor_type a) "DC") as [Hflag|Hflag].
  - destruct (dc_bundle_shape _ _ E0) as [Hpar _].
    destruct (simulate_dc_motor_keys _ _ E0) as (_ & _ & Hdc & _).
    split; [exact Hpar|]. split; [simpl; eauto|].
    change (is_dc x0 = true <-> app_motor_type a = "DC"). tauto.
  - destruct (ac_bundle_shape _ _ E0) as [Hpar _].
    destruct (simulate_ac_motor_keys _ _ E0) as (_ & _ & Hac).
    split; [exact Hpar|]. split; [simpl; eauto|].
    change (is_dc x0 = true <-> app_motor_type a = "DC").
    split; intros; congruence.
Qed.

(** Every bundle of the history is a recorded one, whatever runs, edits
    and motor-type selections happen: the invariant the exports and the
    loader of a saved history can rely on. *)
Theorem history_recorded (a : app F) (evs : list (event F)) :
  Forall recorded (simulation_history a) ->
  Forall recorded (simulation_history (fold_left handle evs a)).
Proof.
  revert a. induction evs as [|ev evs IH]; intros a Hinv; [exact Hinv|].
  simpl. apply IH. destruct ev as [g now| |]; simpl; try exact Hinv.
  by apply run_simulation_recorded.
Qed.

Lemma recorded_dc_bundle_not_displayable_aux (now : string)
    (param_vars : param_store) (b : results F) :
  recorded b -> is_dc b = true ->
  display_results_items now param_vars b = Raise (KeyError "frequency").
Proof.
  intros (_ & _ & Hflag) Hdc. apply Hflag in Hdc as Hmt.
  unfold display_results_items. rewrite Hmt. simpl String.eqb. cbv iota.
  unfold ac_key. unfold is_dc in Hdc.
  destruct (specific b); [reflexivity | discriminate].
Qed.

(** A recorded DC bundle cannot be shown again: its motor type is the
    flag ["DC"], not the label ["DC Motor"] the report tests for, so the
    report takes the AC branch and fails on the key [frequency]. *)
Theorem recorded_dc_bundle_not_displayable (now : string)
    (param_vars : param_store) (b : results F) :
  recorded b -> is_dc b = true ->
  display_results_items now param_vars b = Raise (KeyError "frequency").
Proof. apply recorded_dc_bundle_not_displayable_aux. Qed.

(** Loading a saved history whose last run was a DC run reports the
    error [KeyError: 'frequency'] instead of showing it; the history in
    memory stays as it was. *)
Theorem load_saved_dc_run_fails (g : gui F) (now : string)
    (data : list (results F)) (last_sim : results F) (a : app F) :
  results_text_delete g = Ok tt ->
  Forall recorded data -> last data = Some last_sim -> is_dc last_sim = true ->
  load_simulation g now (Some (Ok data)) a
  = (a, Some (ShowError "Error" (KeyError "frequency"))).
Proof.
  intros Hdel Hdata Hlast Hdc. unfold load_simulation.
  cbn [mbind result_bind]. rewrite Hlast, Hdel. cbn [mbind result_bind].
  rewrite recorded_dc_bundle_not_displayable_aux; [reflexivity| |exact Hdc].
  rewrite Forall_forall in Hdata. apply Hdata.
  apply last_Some in Hlast as [l ->]. apply elem_of_app. right. by left.
Qed.

End Report.

Arguments part : clear implicits.
Arguments item : clear implicits.

(** ** What a grade demands *)

Section Grades.
Context {F : Type} `{PyFloat F}.

Local Open Scope py_scope.

Lemma rating_returns (param_vars : param_store) (r : results F) (text : string) :
  param_vars !! "insulation_class" = Some text ->
  exists rt, calculate_performance_rating param_vars r = Ok rt.
Proof.
  intros Hclass. unfold calculate_performance_rating, lookup_var.
  rewrite Hclass. cbn [mbind result_bind]. eauto.
Qed.

(** The ratio of the operating temperature to the limit of the insulation
    class [text]. *)
Definition thermal_ratio (r : results F) (text : string) : F :=
  operating_temp r / of_Z (default 155%Z (temp_limits !! str_upper text)).

End Grades.

(** ** Where the sweeps end *)

Section EndPoints.
Context {F : Type} `{PyFloat F}.

Local Open Scope py_scope.

Lemma last_set_last (l : list F) (x : F) :
  l <> [] -> last (set_last l x) = Some x.
Proof.
  induction l as [|y l IH]; [done|]. intros _.
  destruct l as [|z l]; [reflexivity|].
  change (set_last (y :: z :: l) x) with (y :: set_last (z :: l) x).
  rewrite last_cons, IH by done. reflexivity.
Qed.

Lemma last_linspace_50 (start stop : F) : last (linspace start stop 50) = Some stop.
Proof.
  unfold linspace.
  change (1 <? Z.of_nat 50)%Z with true. cbv iota.
  apply last_set_last. intros Hnil. apply (f_equal length) in Hnil.
  revert Hnil.
  repeat match goal with
  | |- context [if ?b then _ else _] => destruct b
  end; rewrite !length_map, length_seq; discriminate.
Qed.

(** In any arithmetic the sweeps end exactly where they are told to: the
    last DC speed is [rated_speed * 1.2] itself, not a rounded multiple of
    the step, and the last AC sample is the one of slip 1, the locked
    rotor. *)
Theorem sweep_end_points (param_vars : param_store) (b : results F) :
  (simulate_dc_motor param_vars = Ok b ->
   last (speed_range b)
   = Some (param param_vars "rated_speed" (lit 1500 0) * lit 12 (-1)))
  /\ (simulate_ac_motor param_vars = Ok b ->
      last slip_range = Some (lit 1 0)
      /\ exists Ns, synchronous_speed b = Some Ns
           /\ last (speed_range b) = Some (Ns * (lit 1 0 - lit 1 0))).
Proof.
  split.
  - intros Hb. destruct (simulate_dc_motor_curves _ _ Hb) as (-> & _).
    apply last_linspace_50.
  - intros Hb.
    destruct (simulate_ac_motor_curves _ _ Hb) as (fr & _ & _ & _ & HNs & -> & _).
    split; [apply last_linspace_50|].
    exists (ac_Ns fr). split; [exact HNs|].
    rewrite fmap_last. unfold slip_range. by rewrite last_linspace_50.
Qed.

End EndPoints.

(** ** What makes an engine raise *)

Section EngineErrors.
Context {F : Type} `{PyFloat F}.

Local Open Scope py_scope.

Lemma py_div_zero (x y : F) :
  (y =? lit 0 0) = true -> py_div x y = Raise ZeroDivisionError.
Proof. intros Hy. unfold py_div. by rewrite Hy. Qed.

Lemma py_div_nonzero (x y : F) :
  (y =? lit 0 0) = false -> py_div x y = Ok (x / y).
Proof. intros Hy. unfold py_div. by rewrite Hy. Qed.

(** A zero field resistance, or a zero armature resistance, stops the DC
    engine with [ZeroDivisionError]: [V / Rf] and [(V - Eb) / Ra] are
    divisions of Python floats. *)
Theorem dc_zero_resistance_raises (param_vars : param_store) :
  (param param_vars "field_resistance" (lit 100 0) =? lit 0 0) = true
  \/ (param param_vars "armature_resistance" (lit 15 (-1)) =? lit 0 0) = true ->
  simulate_dc_motor param_vars = Raise ZeroDivisionError.
Proof.
  intros Hzero. unfold simulate_dc_motor. rewrite !get_parameter_value_param.
  cbn [mbind result_bind].
  destruct (param param_vars "field_resistance" (lit 100 0) =? lit 0 0) eqn:HRf.
  - by rewrite (py_div_zero _ _ HRf).
  - destruct Hzero as [Hzero|HRa]; [discriminate|].
    rewrite (py_div_nonzero _ _ HRf). cbn [mbind result_bind].
    by rewrite (py_div_zero _ _ HRa).
Qed.

(** The pole count is [int(poles)]: a pole entry that is not a number
    stops the AC engine with the error of [int()], and one whose integer
    part is zero, like a zero magnetizing current, with
    [ZeroDivisionError]. *)
Theorem ac_degenerate_parameters_raise (param_vars : param_store) :
  match py_int (param param_vars "poles" (lit 4 0)) with
  | Raise e => simulate_ac_motor param_vars = Raise e
  | Ok P_poles =>
      (of_Z P_poles =? lit 0 0) = true
      \/ (param param_vars "magnetizing_current" (lit 3 0) * fsqrt (lit 3 0)
          =? lit 0 0) = true ->
      simulate_ac_motor param_vars = Raise ZeroDivisionError
  end.
Proof.
  unfold simulate_ac_motor. rewrite !get_parameter_value_param.
  cbn [mbind result_bind].
  destruct (py_int (param param_vars "poles" (lit 4 0))) as [P_poles|e];
    [|reflexivity].
  cbn [mbind result_bind]. intros Hzero.
  destruct (of_Z P_poles =? lit 0 0) eqn:HP.
  - by rewrite (py_div_zero _ _ HP).
  - destruct Hzero as [Hzero|HIm]; [discriminate|].
    rewrite (py_div_nonzero _ _ HP). cbn [mbind result_bind].
    by rewrite (py_div_zero _ _ HIm).
Qed.

(** A run whose engine raises reports that error and adds nothing to the
    history, whatever the widgets do afterwards. *)
Theorem run_simulation_engine_error (g : gui F) (now : string) (a : app F) (e : exn) :
  results_text_delete g = Ok tt ->
  selected_engine a = Raise e ->
  run_simulation g now a = (a, Some e).
Proof.
  intros Hdel Heng. unfold run_simulation, run_simulation_try.
  rewrite Hdel. cbn [mbind result_bind].
  unfold selected_engine in Heng. rewrite Heng. reflexivity.
Qed.

End EngineErrors.

(** ** Which errors an engine can raise *)

Section ErrorKinds.
Context {F : Type} `{PyFloat F}.

Local Open Scope py_scope.

(** [m] returns, or raises an exception that satisfies [P]. *)
Definition raises_only {A : Type} (P : exn -> Prop) (m : result A) : Prop :=
  match m with
  | Ok _ => True
  | Raise e => P e
  end.

(** The errors of float arithmetic, and those of [int()] and [math.sqrt]
    with them. *)
Definition arithmetic (e : exn) : Prop :=
  e = ZeroDivisionError \/ e = OverflowError.

Definition numerical (e : exn) : Prop :=
  e = ZeroDivisionError \/ e = OverflowError \/ e = ValueError.

Lemma raises_only_bind {A B : Type} (P : exn -> Prop)
    (m : result A) (f : A -> result B) :
  raises_only P m -> (forall x, raises_only P (f x)) -> raises_only P (m ≫= f).
Proof. destruct m as [x|e]; simpl; auto. Qed.

Lemma raises_only_for_each {S : Type} (P : exn -> Prop)
    (body : S -> F -> result S) (l : list F) (s : S) :
  (forall s x, raises_only P (body s x)) -> raises_only P (for_each body l s).
Proof.
  intros Hbody. revert s. induction l as [|x l IH]; intros s; simpl; [exact I|].
  apply raises_only_bind; [apply Hbody | exact IH].
Qed.

Lemma py_div_arithmetic (x y : F) : raises_only arithmetic (py_div x y).
Proof. unfold py_div. destruct (y =? lit 0 0); simpl; [by left | exact I]. Qed.

Lemma py_pow2_arithmetic (x : F) : raises_only arithmetic (py_pow2 x).
Proof.
  unfold py_pow2.
  destruct (f_isnan x), (f_isinf x), (f_isinf (x * x)); simpl;
    try exact I; by right.
Qed.

Lemma py_div_numerical (x y : F) : raises_only numerical (py_div x y).
Proof. unfold py_div. destruct (y =? lit 0 0); simpl; [by left | exact I]. Qed.

Lemma py_pow2_numerical (x : F) : raises_only numerical (py_pow2 x).
Proof.
  unfold py_pow2.
  destruct (f_isnan x), (f_isinf x), (f_isinf (x * x)); simpl;
    try exact I; right; by left.
Qed.

Lemma py_sqrt_numerical (x : F) : raises_only numerical (py_sqrt x).
Proof.
  unfold py_sqrt. destruct (x <? lit 0 0); simpl; [right; by right | exact I].
Qed.

Lemma py_int_numerical (x : F) : raises_only numerical (py_int x).
Proof.
  unfold py_int. destruct (f_isnan x), (f_isinf x); simpl;
    try exact I; try (right; by right); right; by left.
Qed.

(** Walks through the binds of an engine. *)
Ltac kinds :=
  repeat first
    [ exact I
    | apply py_div_arithmetic | apply py_pow2_arithmetic
    | apply py_div_numerical | apply py_pow2_numerical
    | apply py_sqrt_numerical | apply py_int_numerical
    | apply raises_only_bind; [|intros ?; cbv beta zeta]
    | match goal with
      | |- raises_only _ (if ?b then _ else _) => destruct b
      end ].

Lemma ac_sweep_body_numerical (V Rs Rr X1 X2 Vph Ns omega_sync : F)
    (c : curves F) (s_val : F) :
  raises_only numerical (ac_sweep_body V Rs Rr X1 X2 Vph Ns omega_sync c s_val).
Proof. unfold ac_sweep_body. cbv zeta. kinds. Qed.

Lemma simulate_dc_motor_arithmetic (param_vars : param_store) :
  raises_only arithmetic (simulate_dc_motor param_vars).
Proof.
  unfold simulate_dc_motor. rewrite !get_parameter_value_param.
  cbn [mbind result_bind]. kinds.
Qed.

Lemma simulate_ac_motor_numerical (param_vars : param_store) :
  raises_only numerical (simulate_ac_motor param_vars).
Proof.
  unfold simulate_ac_motor. rewrite !get_parameter_value_param.
  cbn [mbind result_bind]. kinds.
  apply raises_only_for_each. intros ? ?. apply ac_sweep_body_numerical.
Qed.

(** The engines raise nothing but errors of arithmetic: the DC engine a
    [ZeroDivisionError] or an [OverflowError], the AC engine one of these
    or a [ValueError]; never a [KeyError], whatever the store lacks. *)
Theorem engine_error_kinds (param_vars : param_store) (e : exn) :
  (simulate_dc_motor param_vars = Raise e ->
   e = ZeroDivisionError \/ e = OverflowError)
  /\ (simulate_ac_motor param_vars = Raise e ->
      e = ZeroDivisionError \/ e = OverflowError \/ e = ValueError).
Proof.
  split; intros He.
  - pose proof (simulate_dc_motor_arithmetic param_vars) as Hk.
    rewrite He in Hk. exact Hk.
  - pose proof (simulate_ac_motor_numerical param_vars) as Hk.
    rewrite He in Hk. exact Hk.
Qed.

End ErrorKinds.

(** ** Which parameter sets the DC engine accepts, and which bundles the
    report can show *)

Section Acceptance.
Context {F : Type} `{PyFloat F}.

Local Open Scope py_scope.

(** The fact the guards [x / y if y > 0 else 0] rest on, true of binary64
    and of exact arithmetic. *)
Hypothesis positive_not_zero :
  forall x : F, (x >? lit 0 0) = true -> (x =? lit 0 0) = false.

Lemma guarded_div_returns (x y z : F) :
  exists q, (if y >? lit 0 0 then py_div x y else Ok z) = Ok q.
Proof.
  destruct (y >? lit 0 0) eqn:E; [|eauto].
  rewrite py_div_nonzero by (by apply positive_not_zero). eauto.
Qed.

Lemma guarded_percent_returns (x y : F) :
  exists q,
    (if y >? lit 0 0 then q ← py_div x y; Ok (q * lit 100 0)
     else Ok (lit 0 0)) = Ok q.
Proof.
  destruct (y >? lit 0 0) eqn:E; [|eauto].
  rewrite py_div_nonzero by (by apply positive_not_zero). simpl. eauto.
Qed.

(** [I_field] and [I_armature] of [simulate_dc_motor]. *)
Definition field_current (param_vars : param_store) : F :=
  param param_vars "rated_voltage" (lit 220 0)
  / param param_vars "field_resistance" (lit 100 0).

Definition rated_armature_current (param_vars : param_store) : F :=
  (param param_vars "rated_voltage" (lit 220 0)
   - param param_vars "back_emf_constant" (lit 8 (-1))
     * (param param_vars "rated_speed" (lit 1500 0) * lit 2 0 * math_pi / lit 60 0))
  / param param_vars "armature_resistance" (lit 15 (-1)).

(** [x ** 2] raises: [x] is a finite number whose square is not. *)
Definition square_overflows (x : F) : bool :=
  negb (f_isnan x) && negb (f_isinf x) && f_isinf (x * x).

Lemma py_pow2_returns (x : F) :
  (exists y, py_pow2 x = Ok y) <-> square_overflows x = false.
Proof.
  unfold py_pow2, square_overflows.
  destruct (f_isnan x), (f_isinf x), (f_isinf (x * x)); simpl;
    split; try done; eauto; by intros [y Hy].
Qed.

Lemma simulate_dc_motor_accepts (param_vars : param_store) :
  (exists b, simulate_dc_motor param_vars = Ok b)
  <-> (param param_vars "field_resistance" (lit 100 0) =? lit 0 0) = false
      /\ (param param_vars "armature_resistance" (lit 15 (-1)) =? lit 0 0) = false
      /\ square_overflows (rated_armature_current param_vars) = false
      /\ square_overflows (field_current param_vars) = false.
Proof.
  unfold simulate_dc_motor, rated_armature_current, field_current.
  rewrite !get_parameter_value_param. cbn [mbind result_bind]. split.
  - intros [b Hb].
    destruct (param param_vars "field_resistance" (lit 100 0) =? lit 0 0) eqn:HRf;
      [by rewrite (py_div_zero _ _ HRf) in Hb|].
    rewrite (py_div_nonzero _ _ HRf) in Hb. cbn [mbind result_bind] in Hb.
    destruct (param param_vars "armature_resistance" (lit 15 (-1)) =? lit 0 0)
      eqn:HRa; [by rewrite (py_div_zero _ _ HRa) in Hb|].
    rewrite (py_div_nonzero _ _ HRa) in Hb. cbn [mbind result_bind] in Hb.
    split_binds.
    repeat split; apply py_pow2_returns; eauto.
  - intros (HRf & HRa & HIa & HIf).
    apply py_pow2_returns in HIa as [Ia_2 HIa].
    apply py_pow2_returns in HIf as [If_2 HIf].
    rewrite (py_div_nonzero _ _ HRf). cbn [mbind result_bind].
    rewrite (py_div_nonzero _ _ HRa). cbn [mbind result_bind].
    repeat first
      [ progress cbn [mbind result_bind]
      | rewrite HIa | rewrite HIf
      | match goal with
        | |- context [if ?y >? lit 0 0 then py_div ?x ?y else Ok ?z] =>
            let q := fresh "q" in
            destruct (guarded_div_returns x y z) as [q ->]
        | |- context [if ?y >? lit 0 0
                      then py_div ?x ?y ≫= _ else Ok (lit 0 0)] =>
            let q := fresh "q" in
            destruct (guarded_percent_returns x y) as [q ->]
        end ].
    eauto.
Qed.

(** The report of a bundle whose label and keys agree, as they do in a
    bundle fresh from an engine. *)
Lemma display_results_items_returns (now : string) (param_vars : param_store)
    (r : results F) :
  is_dc r = String.eqb (motor_type r) "DC Motor" ->
  is_Some (param_vars !! "insulation_class") ->
  exists items, display_results_items now param_vars r = Ok items.
Proof.
  intros Hkeys [text Hclass]. unfold display_results_items.
  destruct (rating_returns param_vars r text Hclass) as [rt Hrt].
  destruct (guarded_percent_returns (total_loss r) (input_power r)) as [q Hq].
  unfold lookup_var. rewrite Hclass, Hrt, Hq. unfold is_dc in Hkeys.
  destruct (String.eqb (motor_type r) "DC Motor");
    unfold dc_key, ac_key; destruct (specific r); try discriminate;
    cbn; eauto.
Qed.

End Acceptance.

(** ** Facts of binary64 arithmetic *)

Module Float.

Local Open Scope float_scope.

(** The literals of the source are the doubles Python reads. *)
Lemma lit_0 : lit 0 0 = 0. Proof. reflexivity. Qed.
Lemma lit_100 : lit 100 0 = 100. Proof. reflexivity. Qed.

(** *** Signs of rounded results *)

(** [r] is a number of sign [sx]. *)
Definition signed (sx : bool) (r : spec_float) : Prop :=
  match r with
  | S754_nan => False
  | S754_zero s | S754_infinity s | S754_finite s _ _ => s = sx
  end.

Lemma shr_1_nonneg (mrs : shr_record) :
  (0 <= shr_m mrs)%Z -> (0 <= shr_m (shr_1 mrs))%Z.
Proof. destruct mrs as [[|[p|p|]|p] r t]; simpl; lia. Qed.

Lemma iter_shr_1_nonneg (p : positive) (mrs : shr_record) :
  (0 <= shr_m mrs)%Z -> (0 <= shr_m (SpecFloat.iter_pos shr_1 p mrs))%Z.
Proof.
  revert mrs. induction p as [p IH|p IH|]; intros mrs Hm; simpl.
  - apply IH, IH, shr_1_nonneg, Hm.
  - apply IH, IH, Hm.
  - apply shr_1_nonneg, Hm.
Qed.

Lemma shr_fexp_nonneg (m e : Z) (l : location) :
  (0 <= m)%Z -> (0 <= shr_m (fst (shr_fexp prec emax m e l)))%Z.
Proof.
  intros Hm. unfold shr_fexp, shr.
  assert (Hloc : (0 <= shr_m (shr_record_of_loc m l))%Z)
    by (destruct l as [|[]]; exact Hm).
  destruct (fexp prec emax (Zdigits2 m + e) - e)%Z; simpl; try exact Hloc.
  by apply iter_shr_1_nonneg.
Qed.

Lemma round_nearest_even_nonneg (m : Z) (l : location) :
  (0 <= m)%Z -> (0 <= round_nearest_even m l)%Z.
Proof.
  intros Hm. destruct l as [|[]]; simpl; try lia. destruct (Z.even m); lia.
Qed.

Lemma binary_round_aux_signed (sx : bool) (mx ex : Z) (lx : location) :
  (0 <= mx)%Z -> signed sx (binary_round_aux prec emax sx mx ex lx).
Proof.
  intros Hm. unfold binary_round_aux.
  pose proof (shr_fexp_nonneg mx ex lx Hm) as H1.
  destruct (shr_fexp prec emax mx ex lx) as [mrs' e']. simpl in H1.
  pose proof (shr_fexp_nonneg
    (round_nearest_even (shr_m mrs') (loc_of_shr_record mrs')) e' loc_Exact
    (round_nearest_even_nonneg _ _ H1)) as H2.
  destruct (shr_fexp prec emax _ e' loc_Exact) as [mrs'' e'']. simpl in H2.
  destruct (shr_m mrs'') as [|m|m]; simpl; try reflexivity; [|lia].
  destruct (e'' <=? emax - prec)%Z; reflexivity.
Qed.

(** *** Comparisons with zero, 100 and infinity *)

Definition sf_nonneg (r : spec_float) : Prop :=
  match r with
  | S754_zero _ | S754_finite false _ _ | S754_infinity false => True
  | _ => False
  end.

Definition sf_pos (r : spec_float) : Prop :=
  match r with
  | S754_finite false _ _ | S754_infinity false => True
  | _ => False
  end.

Definition sf_bounded (r : spec_float) : Prop :=
  match r with
  | S754_zero _ | S754_finite _ _ _ => True
  | _ => False
  end.

Lemma leb_0_nonneg (x : float) : (0 <=? x) = true <-> sf_nonneg (Prim2SF x).
Proof.
  rewrite FloatAxioms.leb_spec. change (Prim2SF 0) with (S754_zero false).
  destruct (Prim2SF x) as [s|[]| |[] m e]; simpl; intuition discriminate.
Qed.

Lemma ltb_0_pos (x : float) : (0 <? x) = true <-> sf_pos (Prim2SF x).
Proof.
  rewrite FloatAxioms.ltb_spec. change (Prim2SF 0) with (S754_zero false).
  destruct (Prim2SF x) as [s|[]| |[] m e]; simpl; intuition discriminate.
Qed.

Lemma eqb_0_zero (x : float) :
  (x =? 0) = true <-> exists s, Prim2SF x = S754_zero s.
Proof.
  rewrite FloatAxioms.eqb_spec. change (Prim2SF 0) with (S754_zero false).
  destruct (Prim2SF x) as [s|[]| |[] m e]; simpl; split;
    try discriminate; try (intros [? [=]]); eauto.
Qed.

(** [x] is finite: neither not-a-number nor an infinity. *)
Definition finite (x : float) : Prop := (abs x <? infinity) = true.

Lemma finite_bounded (x : float) : finite x <-> sf_bounded (Prim2SF x).
Proof.
  unfold finite. rewrite FloatAxioms.ltb_spec, FloatAxioms.abs_spec.
  change (Prim2SF infinity) with (S754_infinity false).
  destruct (Prim2SF x) as [s|[]| |[] m e]; simpl; intuition discriminate.
Qed.

Lemma pos_not_zero (x : float) : (0 <? x) = true -> (x =? 0) = false.
Proof.
  rewrite ltb_0_pos. intros Hpos.
  destruct (x =? 0) eqn:E; [|reflexivity].
  apply eqb_0_zero in E as [s E]. rewrite E in Hpos. destruct Hpos.
Qed.

Lemma signed_nonneg (r : spec_float) : signed false r -> sf_nonneg r.
Proof. destruct r as [s|s| |s m e]; simpl; intros E; subst; exact I || exact E. Qed.

Lemma div_nonneg (x y : float) :
  sf_nonneg (Prim2SF x) -> sf_bounded (Prim2SF x) -> sf_pos (Prim2SF y) ->
  sf_nonneg (Prim2SF (x / y)).
Proof.
  rewrite div_spec. unfold SF64div.
  destruct (Prim2SF x) as [sx|sx| |sx mx ex], (Prim2SF y) as [sy|sy| |sy my ey];
    simpl; try tauto;
    try (destruct sx; try tauto); try (destruct sy; try tauto).
  intros _ _ _. apply signed_nonneg.
  change (signed false
    (let '(mz, ez, lz) := SFdiv_core_binary prec emax (Z.pos mx) ex (Z.pos my) ey in
     binary_round_aux prec emax false mz ez lz)).
  unfold SFdiv_core_binary.
  set (e' := Z.min _ _). set (m' := match (ex - ey - e')%Z with
    | Z0 => Z.pos mx | Zpos _ => Z.shiftl (Z.pos mx) (ex - ey - e') | Zneg _ => 0%Z end).
  assert (Hm' : (0 <= m')%Z).
  { subst m'. destruct (ex - ey - e')%Z eqn:E; try lia. apply Z.shiftl_nonneg. lia. }
  pose proof (Z_div_mod m' (Z.pos my) eq_refl) as Hdiv.
  destruct (Z.div_eucl m' (Z.pos my)) as [q r].
  apply binary_round_aux_signed. nia.
Qed.

Lemma mul_100_nonneg (x : float) :
  sf_nonneg (Prim2SF x) -> sf_nonneg (Prim2SF (x * 100)).
Proof.
  rewrite mul_spec. unfold SF64mul.
  change (Prim2SF 100) with (S754_finite false 7036874417766400 (-46)).
  destruct (Prim2SF x) as [sx|sx| |sx mx ex]; simpl; try tauto.
  - destruct sx; tauto.
  - destruct sx; [tauto|]. intros _. apply signed_nonneg.
    by apply binary_round_aux_signed.
Qed.

(** The quotient of the efficiency formulas keeps the sign of a finite
    output power. *)
Lemma percent_nonneg (P_out P_in : float) :
  (0 <=? P_out) = true -> finite P_out -> (0 <? P_in) = true ->
  (0 <=? P_out / P_in * 100) = true.
Proof.
  rewrite !leb_0_nonneg, ltb_0_pos, finite_bounded. intros Hn Hb Hp.
  by apply mul_100_nonneg, div_nonneg.
Qed.

Lemma SFcompare_antisym (x y : spec_float) :
  SFcompare y x = option_map CompOpp (SFcompare x y).
Proof.
  destruct x as [sx|sx| |sx mx ex], y as [sy|sy| |sy my ey]; simpl;
    try reflexivity; try (by destruct sx); try (by destruct sy);
    try (by destruct sx, sy).
  destruct sx, sy; simpl; try reflexivity; f_equal;
    rewrite (Z.compare_antisym ex ey); destruct (ex ?= ey)%Z; simpl;
    try reflexivity;
    by rewrite (Pos.compare_cont_antisym mx my Eq).
Qed.

(** Among numbers, not greater is at most. *)
Lemma not_ltb_leb (x y : float) :
  (y <? x) = false -> PrimFloat.is_nan x = false -> PrimFloat.is_nan y = false ->
  (x <=? y) = true.
Proof.
  unfold PrimFloat.is_nan.
  rewrite FloatAxioms.ltb_spec, FloatAxioms.leb_spec, !FloatAxioms.eqb_spec.
  unfold SFltb, SFleb, SFeqb. rewrite (SFcompare_antisym (Prim2SF x) (Prim2SF y)).
  destruct (SFcompare (Prim2SF x) (Prim2SF y)) as [[]|] eqn:E; simpl; try discriminate; try reflexivity.
  intros _ Hx Hy.
  destruct (Prim2SF x) as [sx|sx| |sx mx ex], (Prim2SF y) as [sy|sy| |sy my ey];
    simpl in *; try discriminate.
Qed.

Lemma nonneg_not_nan (x : float) : (0 <=? x) = true -> PrimFloat.is_nan x = false.
Proof.
  rewrite leb_0_nonneg. unfold PrimFloat.is_nan. rewrite FloatAxioms.eqb_spec.
  unfold SFeqb. destruct (Prim2SF x) as [s|[]| |[] m e]; simpl; try tauto.
  intros _. by rewrite Z.compare_refl, Pos.compare_cont_refl.
Qed.

(** *** Two thresholds in a row *)

(** Shows the mantissa comparisons of a goal as [Pos.compare]. *)
Ltac mantissas :=
  repeat match goal with
  | |- context [Pos.compare_cont Eq ?p ?q] =>
      progress change (Pos.compare_cont Eq p q) with (Pos.compare p q)
  end.

(** [c2 < c1 <= x] gives [c2 <= x], for positive numbers [c1], [c2]. *)
Lemma SFleb_below (m2 m1 : positive) (e2 e1 : Z) (x : spec_float) :
  SFcompare (S754_finite false m2 e2) (S754_finite false m1 e1) = Some Lt ->
  SFleb (S754_finite false m1 e1) x = true ->
  SFleb (S754_finite false m2 e2) x = true.
Proof.
  unfold SFleb. destruct x as [s|[]| |[] m e]; simpl; try done.
  mantissas.
  destruct (Z.compare_spec e2 e1), (Z.compare_spec e1 e), (Z.compare_spec e2 e);
    try done; try lia; subst;
    destruct (Pos.compare_spec m2 m1), (Pos.compare_spec m1 m),
      (Pos.compare_spec m2 m); try done; lia.
Qed.

(** [x < c1 < c2] gives [x < c2], for positive numbers [c1], [c2]. *)
Lemma SFltb_above (m1 m2 : positive) (e1 e2 : Z) (x : spec_float) :
  SFcompare (S754_finite false m1 e1) (S754_finite false m2 e2) = Some Lt ->
  SFltb x (S754_finite false m1 e1) = true ->
  SFltb x (S754_finite false m2 e2) = true.
Proof.
  unfold SFltb. destruct x as [s|[]| |[] m e]; simpl; try done.
  mantissas.
  destruct (Z.compare_spec e1 e2), (Z.compare_spec e e1), (Z.compare_spec e e2);
    try done; try lia; subst;
    destruct (Pos.compare_spec m1 m2), (Pos.compare_spec m m1),
      (Pos.compare_spec m m2); try done; lia.
Qed.

Lemma leb_below (c2 c1 x : float) (m2 m1 : positive) (e2 e1 : Z) :
  Prim2SF c2 = S754_finite false m2 e2 -> Prim2SF c1 = S754_finite false m1 e1 ->
  (c2 <? c1) = true -> (c1 <=? x) = true -> (c2 <=? x) = true.
Proof.
  rewrite FloatAxioms.ltb_spec, !FloatAxioms.leb_spec. intros -> ->.
  unfold SFltb.
  destruct (SFcompare (S754_finite false m2 e2) (S754_finite false m1 e1))
    as [[]|] eqn:E; try done.
  intros _. by apply SFleb_below.
Qed.

Lemma ltb_above (c1 c2 x : float) (m1 m2 : positive) (e1 e2 : Z) :
  Prim2SF c1 = S754_finite false m1 e1 -> Prim2SF c2 = S754_finite false m2 e2 ->
  (c1 <? c2) = true -> (x <? c1) = true -> (x <? c2) = true.
Proof.
  rewrite !FloatAxioms.ltb_spec. intros -> ->.
  unfold SFltb at 1.
  destruct (SFcompare (S754_finite false m1 e1) (S754_finite false m2 e2))
    as [[]|] eqn:E; try done.
  intros _. by apply SFltb_above.
Qed.

(** *** The clamp *)

(** Shows the generic operations of a goal as the primitive ones. *)
Ltac primitive :=
  change (@lit float binary64 0 0) with 0 in *;
  change (@lit float binary64 100 0) with 100 in *;
  change (@fltb float binary64) with PrimFloat.ltb in *;
  change (@fleb float binary64) with PrimFloat.leb in *;
  change (@feqb float binary64) with PrimFloat.eqb in *;
  change (@fmul float binary64) with PrimFloat.mul in *;
  change (@fdiv float binary64) with PrimFloat.div in *;
  change (@fadd float binary64) with PrimFloat.add in *;
  change (@fsub float binary64) with PrimFloat.sub in *.

(** Replaces the literals of a goal by the doubles they denote. *)
Ltac literals :=
  repeat match goal with
  | |- context [@lit float binary64 ?m ?e] =>
      let v := eval vm_compute in (@lit float binary64 m e) in
      change (@lit float binary64 m e) with v
  end.

Lemma min100_not_above (e : float) : (100 <? min100 e) = false.
Proof.
  unfold min100. primitive.
  destruct (100 <? e) eqn:E; [reflexivity | exact E].
Qed.

Lemma min100_nonneg (e : float) : (0 <=? e) = true -> (0 <=? min100 e) = true.
Proof.
  unfold min100. primitive.
  destruct (100 <? e); [reflexivity | trivial].
Qed.

Lemma ratio_percent_nonneg (P_out P_in : float) :
  (0 <=? P_out) = true -> finite P_out ->
  (0 <=? ratio_percent P_out P_in) = true.
Proof.
  intros Hn Hf. unfold ratio_percent, fgtb. primitive.
  destruct (0 <? P_in) eqn:E; [by apply percent_nonneg | reflexivity].
Qed.

End Float.

(** ** The engines on binary64 *)

Section OnBinary64.

Local Open Scope float_scope.

(** Evaluates an engine on a given store. *)
Ltac run_engine := eexists; split; [vm_compute; reflexivity|]; vm_compute; auto.

(** C1, as stated, fails at the operating point: with a load torque of
    120 Nm the DC engine reports an efficiency above 100, and at slip 100
    the AC engine reports a negative one, the input power being positive
    both times. *)
Lemma efficiency_not_clamped_at_operating_point :
  (exists b : results float,
     simulate_dc_motor (<["load_torque" := "120"]> default_store) = Ok b
     /\ (0 <? input_power b) = true /\ (efficiency b <=? 100) = false)
  /\ (exists b : results float,
     simulate_ac_motor (<["slip" := "100"]> default_store) = Ok b
     /\ (0 <? input_power b) = true /\ (0 <=? efficiency b) = false).
Proof. split; run_engine. Qed.

(** C1, amended: no entry of the efficiency curve of either engine
    exceeds 100, and an entry is between 0 and 100 wherever the output
    power of that entry is a finite number that is at least 0.  The
    operating-point efficiency is [output / input * 100] when the input
    power is positive and 0 otherwise; it is at least 0 when the output
    power is a finite number that is at least 0. *)
Theorem efficiency_bounds (param_vars : param_store) (b : results float) :
  simulate_dc_motor param_vars = Ok b \/ simulate_ac_motor param_vars = Ok b ->
  (forall i e, efficiency_curve b !! i = Some e ->
     (100 <? e) = false
     /\ forall P_out, power_curve b !! i = Some P_out ->
          (0 <=? P_out) = true -> Float.finite P_out ->
          (0 <=? e) = true /\ (e <=? 100) = true)
  /\ efficiency b = ratio_percent (output_power b) (input_power b)
  /\ ((0 <? input_power b) = false -> efficiency b = 0)
  /\ ((0 <=? output_power b) = true -> Float.finite (output_power b) ->
      (0 <=? efficiency b) = true).
Proof.
  intros Hb.
  assert (Heff : efficiency b = ratio_percent (output_power b) (input_power b)).
  { destruct Hb as [Hb|Hb];
      [exact (simulate_dc_motor_efficiency _ _ Hb)
      | exact (simulate_ac_motor_efficiency _ _ Hb)]. }
  split; [|split; [exact Heff|split]].
  - intros i e He.
    destruct (engines_clamped param_vars b i e Hb He) as (P_out & P_in & HP & ->).
    split; [apply Float.min100_not_above|].
    intros P HP' Hn Hf. rewrite HP in HP'. injection HP' as ->.
    assert (H0 : (0 <=? min100 (ratio_percent P P_in)) = true)
      by (by apply Float.min100_nonneg, Float.ratio_percent_nonneg).
    split; [exact H0|].
    apply Float.not_ltb_leb;
      [apply Float.min100_not_above | by apply Float.nonneg_not_nan | reflexivity].
  - intros Hin. rewrite Heff. unfold ratio_percent, fgtb. Float.primitive.
    by rewrite Hin.
  - intros Hn Hf. rewrite Heff. by apply Float.ratio_percent_nonneg.
Qed.

(** The bounds at the default parameters. *)
Lemma efficiency_bounds_witness :
  exists b : results float,
    simulate_ac_motor default_store = Ok b
    /\ (forall i e, efficiency_curve b !! i = Some e -> (100 <? e) = false)
    /\ (0 <=? efficiency b) = true.
Proof.
  destruct (simulate_ac_motor (F:=float) default_store) as [b|e] eqn:E;
    [|vm_compute in E; discriminate].
  exists b. split; [reflexivity|].
  destruct (efficiency_bounds default_store b (or_intror E)) as (Hc & _ & _ & Hp).
  split.
  - intros i e He. apply (Hc i e He).
  - apply Hp; vm_compute in E; injection E as <-; reflexivity.
Defined.


(** Both engines return at the default parameters, with parallel curves. *)
Lemma engines_curves_parallel_witness :
  (exists b : results float, simulate_dc_motor default_store = Ok b /\ parallel 50 b)
  /\ (exists b : results float, simulate_ac_motor default_store = Ok b /\ parallel 50 b).
Proof.
  split.
  - destruct (simulate_dc_motor (F:=float) default_store) as [b|e] eqn:E;
      [|vm_compute in E; discriminate].
    exists b. split; [reflexivity|].
    apply (engines_curves_parallel default_store b (or_introl E)).
  - destruct (simulate_ac_motor (F:=float) default_store) as [b|e] eqn:E;
      [|vm_compute in E; discriminate].
    exists b. split; [reflexivity|].
    apply (engines_curves_parallel default_store b (or_intror E)).
Defined.

(** *** The DC operating point *)

(** C2: with rated voltage 220, armature resistance 1.5, both constants
    0.8, rated speed 1500 and load torque 10, whatever the other
    parameters, a bundle the DC engine returns has the armature current
    [(220 - 0.8 * (1500 * 2 * pi / 60)) / 1.5], the developed torque 0.8
    times that, and the efficiency [(10 * omega) / (220 * I) * 100] at the
    actual angular speed [omega].  The doubles are the same at every run:
    62.89086257093884 A, 50.31269005675108 Nm and 11.127325722670475. *)
Theorem dc_operating_point (param_vars : param_store) (b : results float) :
  param param_vars "rated_voltage" (lit 220 0) = 220 ->
  param param_vars "armature_resistance" (lit 15 (-1)) = 1.5 ->
  param param_vars "back_emf_constant" (lit 8 (-1)) = 0.8 ->
  param param_vars "torque_constant" (lit 8 (-1)) = 0.8 ->
  param param_vars "rated_speed" (lit 1500 0) = 1500 ->
  param param_vars "load_torque" (lit 10 0) = 10 ->
  simulate_dc_motor param_vars = Ok b ->
  input_current b = (220 - 0.8 * (1500 * 2 * Binary64.math_pi / 60)) / 1.5
  /\ developed_torque b = 0.8 * input_current b
  /\ efficiency b = (10 * speed_rad_s b) / (220 * input_current b) * 100
  /\ input_current b = 0x1.f7207c8e3b4d7p+5
  /\ developed_torque b = 0x1.928063a4fc3e0p+5
  /\ efficiency b = 0x1.64130d64d9e57p+3.
Proof.
  intros HV HRa HKe HKt HN HT.
  unfold simulate_dc_motor. rewrite !get_parameter_value_param.
  rewrite HV, HRa, HKe, HKt, HN, HT. simpl.
  intros Hb. split_binds. injection Hb as <-. simpl.
  repeat split.
Qed.

Lemma dc_operating_point_witness :
  exists b : results float,
    simulate_dc_motor default_store = Ok b
    /\ input_current b = 0x1.f7207c8e3b4d7p+5
    /\ efficiency b = 0x1.64130d64d9e57p+3.
Proof.
  destruct (simulate_dc_motor (F:=float) default_store) as [b|e] eqn:E;
    [|vm_compute in E; discriminate].
  exists b. split; [reflexivity|].
  destruct (dc_operating_point default_store b) as (_ & _ & _ & HI & _ & He);
    auto.
Defined.

(** *** The AC synchronous speed *)

(** C3: the synchronous speed of a bundle the AC engine returns is
    [120 * frequency / pole count], the pole count being the integer part
    of the parameter; with frequency 50 and 4 poles it is exactly 1500,
    whatever the other parameters. *)
Theorem synchronous_speed_1500 (param_vars : param_store) (b : results float) :
  simulate_ac_motor param_vars = Ok b ->
  (exists P_poles,
     py_int (F:=float) (param param_vars "poles" (lit 4 0)) = Ok P_poles
     /\ synchronous_speed b
        = Some (120 * param param_vars "frequency" (lit 50 0) / of_Z P_poles))
  /\ (param param_vars "frequency" (lit 50 0) = 50 ->
      param param_vars "poles" (lit 4 0) = 4 ->
      synchronous_speed b = Some 1500).
Proof.
  intros Hb.
  destruct (simulate_ac_motor_curves param_vars b Hb) as (fr & _ & Hfr & _ & HNs & _).
  unfold ac_frame_of in Hfr. split_binds. injection Hfr as <-. simpl in HNs.
  unfold py_div in E0.
  destruct (of_Z x =? lit 0 0)%py; [discriminate|]. injection E0 as <-.
  split.
  - exists x. split; [exact E | exact HNs].
  - intros Hf Hp. rewrite Hf, Hp in *. vm_compute in E. injection E as <-.
    rewrite HNs. reflexivity.
Qed.

Lemma synchronous_speed_1500_witness :
  exists b : results float,
    simulate_ac_motor (<["slip" := "7.5"]> (<["rated_voltage" := "400"]> default_store))
    = Ok b
    /\ synchronous_speed b = Some 1500.
Proof.
  destruct (simulate_ac_motor (F:=float)
              (<["slip" := "7.5"]> (<["rated_voltage" := "400"]> default_store)))
    as [b|e] eqn:E; [|vm_compute in E; discriminate].
  exists b. split; [reflexivity|].
  apply (synchronous_speed_1500 _ b E); reflexivity.
Defined.

(** *** The rating tables *)

(** The tables as the specification words them. *)
Definition efficiency_points (eff : float) : Z :=
  if 90 <=? eff then 40 else if 80 <=? eff then 35
  else if 70 <=? eff then 25 else if 60 <=? eff then 15 else 5.

Definition power_factor_points (pf : float) : Z :=
  if 0.95 <=? pf then 30 else if 0.85 <=? pf then 25
  else if 0.75 <=? pf then 15 else 5.

Definition thermal_points (ratio : float) : Z :=
  if ratio <? 0.7 then 30 else if ratio <? 0.85 then 20
  else if ratio <? 1 then 10 else 0.

Definition insulation_limit (class : string) : Z :=
  if String.eqb class "A" then 105
  else if String.eqb class "B" then 130
  else if String.eqb class "F" then 155
  else if String.eqb class "H" then 180
  else 155.

Definition grade_of (score : Z) : string :=
  if (90 <=? score)%Z then "A+ (Excellent)"
  else if (80 <=? score)%Z then "A (Very Good)"
  else if (70 <=? score)%Z then "B (Good)"
  else if (60 <=? score)%Z then "C (Acceptable)"
  else "D (Poor)".

Lemma temp_limits_insulation_limit (class : string) :
  default 155%Z (temp_limits !! class) = insulation_limit class.
Proof.
  unfold temp_limits, insulation_limit. simpl.
  destruct (String.eqb_spec class "A") as [->|HA]; [reflexivity|].
  rewrite lookup_insert_ne by congruence.
  destruct (String.eqb_spec class "B") as [->|HB]; [reflexivity|].
  rewrite lookup_insert_ne by congruence.
  destruct (String.eqb_spec class "F") as [->|HF]; [reflexivity|].
  rewrite lookup_insert_ne by congruence.
  destruct (String.eqb_spec class "H") as [->|HH]; [reflexivity|].
  rewrite lookup_insert_ne by congruence. reflexivity.
Qed.

(** C4: the score is the sum of the three tables, the thermal one read at
    the ratio of the operating temperature to the limit of the insulation
    class (A 105, B 130, F 155, H 180, any other class 155), and the grade
    follows the score; a bundle with efficiency 92, power factor 0.97 and
    ratio 0.5 is rated exactly 100, "A+ (Excellent)". *)
Theorem rating_tables (param_vars : param_store) (r : results float) (text : string) :
  param_vars !! "insulation_class" = Some text ->
  let ratio := operating_temp r / of_Z (insulation_limit (str_upper text)) in
  (exists rt,
     calculate_performance_rating param_vars r = Ok rt
     /\ score rt = (efficiency_points (efficiency r)
                    + power_factor_points (power_factor r)
                    + thermal_points ratio)%Z
     /\ grade rt = grade_of (score rt))
  /\ (efficiency r = 92 -> power_factor r = 0.97 -> ratio = 0.5 ->
      calculate_performance_rating param_vars r
      = Ok (mkRating 100 "A+ (Excellent)" "Outstanding performance")).
Proof.
  intros Hclass ratio.
  assert (Hrt : exists rt,
     calculate_performance_rating param_vars r = Ok rt
     /\ score rt = (efficiency_points (efficiency r)
                    + power_factor_points (power_factor r)
                    + thermal_points ratio)%Z
     /\ grade rt = grade_of (score rt)
     /\ assessment rt
        = assessment (if (90 <=? score rt)%Z
                      then mkRating 0 "" "Outstanding performance"
                      else mkRating 0 "" (assessment rt))).
  { unfold calculate_performance_rating, lookup_var. rewrite Hclass. simpl.
    rewrite temp_limits_insulation_limit. fold ratio.
    unfold efficiency_points, power_factor_points, thermal_points, fgeb.
    Float.primitive. Float.literals.
    destruct (90 <=? efficiency r), (80 <=? efficiency r),
      (70 <=? efficiency r), (60 <=? efficiency r),
      (0.95 <=? power_factor r), (0.85 <=? power_factor r),
      (0.75 <=? power_factor r),
      (ratio <? 0.7), (ratio <? 0.85), (ratio <? 1);
      eexists; (split; [reflexivity|]); simpl; auto. }
  destruct Hrt as (rt & Hrt & Hs & Hg & Ha).
  split; [exists rt; auto|].
  intros He Hp Hr. rewrite Hrt. f_equal.
  destruct rt as [sc gr asm]. simpl in Hs, Hg, Ha.
  rewrite He, Hp, Hr in Hs.
  change (sc = 100%Z) in Hs. subst sc. simpl in Hg, Ha. by subst.
Qed.

Lemma rating_tables_witness :
  calculate_performance_rating (F:=float) default_store
    {| motor_type := "DC Motor"; timestamp := None; input_voltage := 220;
       input_current := 10; input_power := 2200; output_power := 2024;
       mechanical_power := 2100; efficiency := 92; speed_rpm := 1500;
       speed_rad_s := 157; torque := 13; load_torque := 13;
       developed_torque := 14; core_loss := 44; mechanical_loss := 50;
       total_loss := 176; operating_temp := 77.5; temp_rise := 37.5;
       power_factor := 0.97; speed_range := []; torque_curve := [];
       current_curve := []; power_curve := []; efficiency_curve := [];
       specific := DCKeys 10 2.2 120 100 20 100000 |}
  = Ok (mkRating 100 "A+ (Excellent)" "Outstanding performance").
Proof.
  eapply (rating_tables default_store _ "F"); reflexivity.
Defined.

(** *** Zero slip *)

(** C5 at its failing input: with the default parameters and slip 0 the
    AC engine returns without an error, the line current and the
    efficiency are 0, and the power factor, the input power, the
    temperature rise and the operating temperature are not-a-number. *)
Theorem zero_slip_not_a_number :
  exists b : results float,
    simulate_ac_motor (<["slip" := "0"]> default_store) = Ok b
    /\ input_current b = 0 /\ efficiency b = 0
    /\ PrimFloat.is_nan (power_factor b) = true
    /\ PrimFloat.is_nan (input_power b) = true
    /\ PrimFloat.is_nan (temp_rise b) = true
    /\ PrimFloat.is_nan (operating_temp b) = true.
Proof. eexists. split; [vm_compute; reflexivity|]. vm_compute. repeat split. Qed.

(** *** What a grade demands *)

(** The score is a multiple of 5.  The top grade is out of reach unless
    the efficiency is at least 80, the power factor at least 0.85 and the
    operating temperature below 0.85 of the insulation limit; and a motor
    at or above its insulation limit scores at most 70, so it is graded
    "B (Good)" at best. *)
Theorem grade_requirements (param_vars : param_store) (r : results float)
    (text : string) (rt : rating) :
  param_vars !! "insulation_class" = Some text ->
  calculate_performance_rating param_vars r = Ok rt ->
  (5 | score rt)%Z
  /\ (grade rt = "A+ (Excellent)" ->
      (80 <=? efficiency r) = true
      /\ (0.85 <=? power_factor r) = true
      /\ (thermal_ratio r text <? 0.85) = true)
  /\ ((thermal_ratio r text <? 1) = false ->
      (score rt <= 70)%Z
      /\ grade rt <> "A+ (Excellent)" /\ grade rt <> "A (Very Good)").
Proof.
  intros Hclass. unfold calculate_performance_rating, lookup_var, thermal_ratio.
  rewrite Hclass. cbn [mbind result_bind]. unfold fgeb.
  Float.primitive. Float.literals.
  set (ratio := operating_temp r / _).
  assert (I1 : (90 <=? efficiency r) = true -> (80 <=? efficiency r) = true)
    by (eapply Float.leb_below; reflexivity).
  assert (I2 : (0.95 <=? power_factor r) = true -> (0.85 <=? power_factor r) = true)
    by (eapply Float.leb_below; reflexivity).
  assert (I3 : (ratio <? 0.7) = true -> (ratio <? 0.85) = true)
    by (eapply Float.ltb_above; reflexivity).
  assert (I4 : (ratio <? 0.85) = true -> (ratio <? 1) = true)
    by (eapply Float.ltb_above; reflexivity).
  destruct (90 <=? efficiency r), (80 <=? efficiency r),
    (70 <=? efficiency r), (60 <=? efficiency r),
    (0.95 <=? power_factor r), (0.85 <=? power_factor r),
    (0.75 <=? power_factor r),
    (ratio <? 0.7), (ratio <? 0.85), (ratio <? 1);
    intros [= <-]; simpl;
    (split; [apply Z.mod_divide; [discriminate | reflexivity]|]);
    (split; [intros Hg;
             first [discriminate Hg
                   | repeat split;
                     first [reflexivity | by apply I1 | by apply I2 | by apply I3]]
            |intros Hr;
             first [discriminate Hr
                   | discriminate (I4 eq_refl)
                   | discriminate (I3 eq_refl)
                   | split; [lia | split; discriminate]]]).
Qed.

Lemma grade_requirements_witness :
  exists (b : results float) (rt : rating),
    simulate_ac_motor (<["ambient_temp" := "-700"]> default_store) = Ok b
    /\ calculate_performance_rating default_store b = Ok rt
    /\ grade rt = "A+ (Excellent)"
    /\ (80 <=? efficiency b) = true.
Proof.
  destruct (simulate_ac_motor (F:=float)
              (<["ambient_temp" := "-700"]> default_store)) as [b|e] eqn:E;
    [|vm_compute in E; discriminate].
  destruct (calculate_performance_rating default_store b) as [rt|e] eqn:Ert;
    [|vm_compute in E; injection E as <-; vm_compute in Ert; discriminate].
  exists b, rt. split; [reflexivity|]. split; [exact Ert|].
  assert (Hg : grade rt = "A+ (Excellent)")
    by (vm_compute in E; injection E as <-; vm_compute in Ert;
        injection Ert as <-; reflexivity).
  split; [exact Hg|].
  destruct (grade_requirements default_store b "F" rt eq_refl Ert) as (_ & Htop & _).
  apply (Htop Hg).
Defined.

End OnBinary64.

(** ** The engines in exact arithmetic *)

Module Ideal.

Import Exact.
Local Open Scope R_scope.

Lemma lit_Fin (m e : Z) : lit m e = Fin (IZR m * powerRZ 10 e).
Proof. reflexivity. Qed.

Lemma lit_int (m : Z) : lit m 0 = Fin (IZR m).
Proof. rewrite lit_Fin. simpl. f_equal. lra. Qed.



Lemma ltb_Fin (a b : R) : (Fin a <? Fin b)%py = true <-> a < b.
Proof. simpl. destruct (Rlt_dec a b); intuition discriminate. Qed.

Lemma ltb_Fin_false (a b : R) : ~ a < b -> (Fin a <? Fin b)%py = false.
Proof. intros Hab. simpl. unfold ltb. by destruct (Rlt_dec a b). Qed.

Lemma eqb_Fin (a b : R) : (Fin a =? Fin b)%py = true <-> a = b.
Proof. simpl. destruct (Req_dec_T a b); intuition discriminate. Qed.

Lemma eqb_Fin_false (a b : R) : a <> b -> (Fin a =? Fin b)%py = false.
Proof. intros Hab. simpl. by destruct (Req_dec_T a b). Qed.

(** *** [linspace] between two distinct numbers *)






(** *** Which parameter sets the engines accept *)

Lemma py_pow2_total (x : xreal) :
  exists y, py_pow2 x = Ok y /\ (y <? lit 0 0)%py = false.
Proof.
  rewrite lit_int. destruct x as [a| | |]; unfold py_pow2; simpl.
  - exists (Fin (a * a)). split; [reflexivity|].
    apply ltb_Fin_false. nra.
  - by exists PInf.
  - by exists PInf.
  - by exists NaN.
Qed.

Lemma np_pow2_not_negative (x : xreal) : (np_pow2 x <? lit 0 0)%py = false.
Proof.
  rewrite lit_int. destruct x as [a| | |]; try reflexivity.
  apply ltb_Fin_false. nra.
Qed.

Lemma add_not_negative (x y : xreal) :
  (x <? lit 0 0)%py = false -> (y <? lit 0 0)%py = false ->
  (x + y <? lit 0 0)%py = false.
Proof.
  rewrite lit_int. destruct x as [a| | |], y as [b| | |]; try done.
  intros Ha Hb. apply ltb_Fin_false. intros Hab.
  destruct (Rlt_dec a 0) as [Ha'|Ha'];
    [apply ltb_Fin in Ha'; simpl in *; congruence|].
  destruct (Rlt_dec b 0) as [Hb'|Hb'];
    [apply ltb_Fin in Hb'; simpl in *; congruence|].
  lra.
Qed.

Lemma py_sqrt_total (x : xreal) :
  (x <? lit 0 0)%py = false -> exists y, py_sqrt x = Ok y.
Proof. intros Hx. unfold py_sqrt. rewrite Hx. eauto. Qed.

Lemma positive_not_zero (x : xreal) :
  (x >? lit 0 0)%py = true -> (x =? lit 0 0)%py = false.
Proof.
  unfold fgtb. rewrite lit_int. destruct x as [a| | |]; try done.
  intros Ha%ltb_Fin. apply eqb_Fin_false. lra.
Qed.

Lemma py_div_total (x y : xreal) :
  (y =? lit 0 0)%py = false -> py_div x y = Ok (x / y)%py.
Proof. intros Hy. unfold py_div. by rewrite Hy. Qed.

Lemma guarded_div_total (x y z : xreal) :
  exists q, (if (y >? lit 0 0)%py then py_div x y else Ok z) = Ok q.
Proof.
  destruct (y >? lit 0 0)%py eqn:E; [|eauto].
  rewrite py_div_total by (by apply positive_not_zero). eauto.
Qed.

Lemma guarded_percent_total (x y : xreal) :
  exists q,
    (if (y >? lit 0 0)%py then q ← py_div x y; Ok (q * lit 100 0)%py
     else Ok (lit 0 0)) = Ok q.
Proof.
  destruct (y >? lit 0 0)%py eqn:E; [|eauto].
  rewrite py_div_total by (by apply positive_not_zero). simpl. eauto.
Qed.

(** Runs a goal [exists b, engine = Ok b] through the steps that cannot
    raise in exact arithmetic. *)
Ltac step :=
  first
  [ progress cbn [mbind result_bind]
  | match goal with
    | |- context [py_pow2 ?x] =>
        let y := fresh "y" in
        let Hn := fresh "Hn" in
        destruct (py_pow2_total x) as (y & -> & Hn)
    | |- context [py_sqrt ?x] =>
        let y := fresh "y" in
        destruct (py_sqrt_total x) as (y & ->);
        [repeat apply add_not_negative;
         first [assumption | apply np_pow2_not_negative]|]
    | |- context [if (?y >? lit 0 0)%py then py_div ?x ?y else Ok ?z] =>
        let q := fresh "q" in
        destruct (guarded_div_total x y z) as (q & ->)
    | |- context [if (?y >? lit 0 0)%py
                  then py_div ?x ?y ≫= _ else Ok (lit 0 0)] =>
        let q := fresh "q" in
        destruct (guarded_percent_total x y) as (q & ->)
    | |- exists b, py_div ?x ?y ≫= _ = Ok b =>
        rewrite (py_div_total x y) by assumption
    end ].






(** *** The two speed axes *)







End Ideal.
